(** * OrderManager: order chains, order list, order form and webhooks

    A shallow embedding of the TypeScript front end of the repository
    (features/order_management and features/discord_integration) together
    with the parts of the order-chain engine that the specification
    describes, and the properties the specification states about them. *)

From stdpp Require Import base option list strings pretty gmap fin_maps.
From Stdlib Require Import ZArith Lia Ascii.

Open Scope string_scope.

(** ** JavaScript values and HTTP requests *)

(** The values that form inputs and enum members put into an object:
    strings (enum members, text inputs and the value of every
    [<input>]) and numbers (the initial [quantity: 0]). *)
Inductive JsVal : Type :=
  | JStr (s : string)
  | JNum (n : Z).

#[global] Instance JsVal_eq_dec : EqDecision JsVal.
Proof. solve_decision. Defined.

(** [v || ''] as used for the [value] attribute of the price inputs. *)
Definition js_truthy (v : JsVal) : bool :=
  match v with
  | JStr s => negb (String.eqb s "")
  | JNum n => negb (Z.eqb n 0)
  end.

Inductive Method : Type := GET | POST | PUT | DELETE.

#[global] Instance Method_eq_dec : EqDecision Method.
Proof. solve_decision. Defined.

(** [API_URL] is [process.env.REACT_APP_API_URL || 'http://localhost:8000'];
    the environment is a parameter of every request builder. *)
Definition API_URL (env : option string) : string :=
  match env with
  | Some u => if String.eqb u "" then "http://localhost:8000" else u
  | None => "http://localhost:8000"
  end.

(** Decimal rendering of an identifier inside a template string. *)
Definition show_id (n : nat) : string := pretty n.

(** ** features/order_management/types.ts *)

Module Types.

Inductive OrderStatus : Type := PENDING | ACTIVE | FILLED | CANCELLED | FAILED.

Inductive OrderType : Type := MARKET | LIMIT | STOP | STOP_LIMIT.

Inductive OrderSide : Type := BUY | SELL.

#[global] Instance OrderStatus_eq_dec : EqDecision OrderStatus.
Proof. solve_decision. Defined.
#[global] Instance OrderType_eq_dec : EqDecision OrderType.
Proof. solve_decision. Defined.
#[global] Instance OrderSide_eq_dec : EqDecision OrderSide.
Proof. solve_decision. Defined.

(** The string value of each enum member. *)
Definition OrderStatus_value (s : OrderStatus) : string :=
  match s with
  | PENDING => "pending"
  | ACTIVE => "active"
  | FILLED => "filled"
  | CANCELLED => "cancelled"
  | FAILED => "failed"
  end.

Definition OrderType_value (t : OrderType) : string :=
  match t with
  | MARKET => "market"
  | LIMIT => "limit"
  | STOP => "stop"
  | STOP_LIMIT => "stop_limit"
  end.

Definition OrderSide_value (s : OrderSide) : string :=
  match s with
  | BUY => "buy"
  | SELL => "sell"
  end.

(** [Object.values(OrderType)] and [Object.values(OrderSide)]. *)
Definition OrderType_values : list OrderType := [MARKET; LIMIT; STOP; STOP_LIMIT].
Definition OrderSide_values : list OrderSide := [BUY; SELL].

(** [interface Order]; the optional members are [option]s. *)
Record Order : Type := mkOrder {
  id : nat;
  title : string;
  description : option string;
  status : OrderStatus;
  symbol : string;
  quantity : Z;
  order_type : OrderType;
  side : OrderSide;
  price : option Z;
  stop_price : option Z;
  limit_price : option Z;
  provider : string;
  provider_order_id : option string;
  chain_id : option string;
  chain_type : option string;
  chain_sequence : option Z;
  parent_order_id : option nat;
  created_at : string;
  updated_at : string
}.

(** [interface CreateOrderRequest].  TypeScript interfaces are erased:
    at run time a request is the object the form state holds, built with
    computed keys, so it is a finite map from member names to values. *)
Abbreviation CreateOrderRequest := (gmap string JsVal).

End Types.

(** ** features/order_management/api.ts *)

Module OrdersApi.
Import Types.

(** What axios is asked to send as the request body; [OrdersBody orders]
    stands for the object [{ orders }] of [createOrderChain]. *)
Inductive Body : Type :=
  | NoBody
  | OrderBody (order : CreateOrderRequest)
  | ObjectBody (members : gmap string CreateOrderRequest)
  | OrdersBody (orders : list CreateOrderRequest).

Record Request : Type := mkRequest {
  method : Method;
  url : string;
  body : Body
}.

Definition BASE_URL (env : option string) : string := API_URL env ++ "/api/orders".

Definition getOrders (env : option string) : Request :=
  mkRequest GET (BASE_URL env) NoBody.

Definition getOrder (env : option string) (id : nat) : Request :=
  mkRequest GET (BASE_URL env ++ "/" ++ show_id id) NoBody.

Definition createOrder (env : option string) (order : CreateOrderRequest) : Request :=
  mkRequest POST (BASE_URL env) (OrderBody order).

Definition updateOrder (env : option string) (id : nat) (order : CreateOrderRequest) : Request :=
  mkRequest PUT (BASE_URL env ++ "/" ++ show_id id) (OrderBody order).

Definition cancelOrder (env : option string) (id : nat) : Request :=
  mkRequest POST (BASE_URL env ++ "/" ++ show_id id ++ "/cancel") NoBody.

Definition deleteOrder (env : option string) (id : nat) : Request :=
  mkRequest DELETE (BASE_URL env ++ "/" ++ show_id id) NoBody.

Definition createOrderChain (env : option string) (orders : list CreateOrderRequest) : Request :=
  mkRequest POST (BASE_URL env ++ "/chain") (OrdersBody orders).

Definition createBracketOrder (env : option string)
    (entry takeProfit stopLoss : CreateOrderRequest) : Request :=
  mkRequest POST (BASE_URL env ++ "/bracket")
    (ObjectBody (<["entry_order" := entry]>
                (<["take_profit" := takeProfit]>
                (<["stop_loss" := stopLoss]> ∅)))).

Definition createOCOOrder (env : option string)
    (limitOrder stopOrder : CreateOrderRequest) : Request :=
  mkRequest POST (BASE_URL env ++ "/oco")
    (ObjectBody (<["limit_order" := limitOrder]>
                (<["stop_order" := stopOrder]> ∅))).

(** The member names of an object body, and one of its members. *)
Definition fields (r : Request) : gset string :=
  match body r with
  | ObjectBody members => dom members
  | _ => ∅
  end.

Definition field (r : Request) (name : string) : option CreateOrderRequest :=
  match body r with
  | ObjectBody members => members !! name
  | _ => None
  end.

End OrdersApi.

(** ** features/order_management/components/OrderList/OrderList.tsx *)

Module OrderList.
Import Types.

(** What a handler does, in order: requests handed to axios, the
    [refetch] of the order query, and messages on the console. *)
Inductive Effect : Type :=
  | Send (r : OrdersApi.Request)
  | Refetch
  | ConsoleError (msg : string).

(** [handleCancelOrder] and [handleDeleteOrder] await the request inside
    a [try]; [ok] tells whether the awaited promise resolved. *)
Definition handleCancelOrder (env : option string) (orderId : nat) (ok : bool) : list Effect :=
  Send (OrdersApi.cancelOrder env orderId)
    :: (if ok then [Refetch] else [ConsoleError "Failed to cancel order:"]).

Definition handleDeleteOrder (env : option string) (orderId : nat) (ok : bool) : list Effect :=
  Send (OrdersApi.deleteOrder env orderId)
    :: (if ok then [Refetch] else [ConsoleError "Failed to delete order:"]).

Record IconButton : Type := mkIconButton {
  onClick : bool -> list Effect;
  disabled : bool;
  button_title : string
}.

(** One [<TableRow>] of the table body. *)
Record Row : Type := mkRow {
  key : nat;
  cancelButton : IconButton;
  deleteButton : IconButton;
  detailsButton : IconButton
}.

Definition row (env : option string) (order : Order) : Row :=
  {| key := id order;
     cancelButton :=
       {| onClick := handleCancelOrder env (id order);
          disabled := bool_decide (status order <> ACTIVE);
          button_title := "Cancel Order" |};
     deleteButton :=
       {| onClick := handleDeleteOrder env (id order);
          disabled := bool_decide (status order = ACTIVE);
          button_title := "Delete Order" |};
     detailsButton :=
       {| onClick := fun _ => [];
          disabled := false;
          button_title := "View Details" |} |}.

Inductive View : Type :=
  | LoadingView
  | ErrorView
  | TableView (rows : list Row).

(** The component body: the two early returns, then [orders?.map]. *)
Definition render (env : option string) (isLoading error : bool)
    (orders : option (list Order)) : View :=
  if isLoading then LoadingView
  else if error then ErrorView
  else TableView (match orders with
                  | Some os => map (row env) os
                  | None => []
                  end).

(** A click reaches [onClick] only on a button that is not disabled. *)
Definition click (b : IconButton) (ok : bool) : list Effect :=
  if disabled b then [] else onClick b ok.

Definition buttons (r : Row) : list IconButton :=
  [cancelButton r; deleteButton r; detailsButton r].

(** The requests a user can cause from one row. *)
Definition row_requests (r : Row) (ok : bool) : list OrdersApi.Request :=
  omap (fun e => match e with Send q => Some q | _ => None end)
       (concat (map (fun b => click b ok) (buttons r))).

(** A status change driven by the user from the list: the cancel request
    of the row is sent, which asks for the order to become CANCELLED. *)
Inductive user_transition (env : option string) (order : Order)
    : OrderStatus -> OrderStatus -> Prop :=
  | user_cancel (ok : bool) :
      OrdersApi.cancelOrder env (id order) ∈ row_requests (row env order) ok ->
      user_transition env order (status order) CANCELLED.

Definition terminal (s : OrderStatus) : bool :=
  match s with
  | FILLED | CANCELLED | FAILED => true
  | PENDING | ACTIVE => false
  end.

End OrderList.

(** ** The earlier order list (components/OrderList.tsx over api/orders.ts),
       where [status] is a plain string compared with ['active'] *)

Module LegacyOrderList.

Definition cancelDisabled (status : string) : bool :=
  negb (String.eqb status "active").

End LegacyOrderList.

(** ** features/order_management/components/CreateOrderForm *)

Module CreateOrderForm.
Import Types.

Definition PROVIDERS : list string := ["alpaca"].

(** The object passed to [React.useState], and again to [setFormData]
    when the mutation succeeds. *)
Definition initialFormData : CreateOrderRequest :=
  <["title" := JStr ""]>
  (<["symbol" := JStr ""]>
  (<["quantity" := JNum 0]>
  (<["order_type" := JStr (OrderType_value MARKET)]>
  (<["side" := JStr (OrderSide_value BUY)]>
  (<["provider" := JStr "alpaca"]> ∅))))).

(** [setFormData(prev => ({...prev, [name]: value}))]. *)
Definition handleChange (name : string) (value : JsVal)
    (prev : CreateOrderRequest) : CreateOrderRequest :=
  <[name := value]> prev.

(** [formData.order_type === OrderType.X]. *)
Definition is_type (formData : CreateOrderRequest) (t : OrderType) : bool :=
  bool_decide (formData !! "order_type" = Some (JStr (OrderType_value t))).

(** The text an input shows for a member: [value={formData.x}] and
    [value={formData.x || ''}]. *)
Definition shown (v : option JsVal) : string :=
  match v with
  | Some (JStr s) => s
  | Some (JNum n) => pretty n
  | None => ""
  end.

Definition shown_or_empty (v : option JsVal) : string :=
  match v with
  | Some x => if js_truthy x then shown v else ""
  | None => ""
  end.

Inductive Control : Type :=
  | TextField (name label : string) (numeric required : bool) (value : string)
  | Select (name label : string) (options : list string) (value : string).

Definition control_name (c : Control) : string :=
  match c with
  | TextField name _ _ _ _ => name
  | Select name _ _ _ => name
  end.

(** The controls of the returned form, in document order. *)
Definition render (formData : CreateOrderRequest) : list Control :=
  [ TextField "title" "Order Title" false true (shown (formData !! "title"));
    TextField "symbol" "Symbol" false true (shown (formData !! "symbol"));
    TextField "quantity" "Quantity" true true (shown (formData !! "quantity"));
    Select "order_type" "Order Type" (map OrderType_value OrderType_values)
           (shown (formData !! "order_type"));
    Select "side" "Side" (map OrderSide_value OrderSide_values)
           (shown (formData !! "side"));
    Select "provider" "Provider" PROVIDERS (shown (formData !! "provider")) ]
  ++ (if negb (is_type formData MARKET) then
        (if is_type formData LIMIT || is_type formData STOP_LIMIT
         then [TextField "limit_price" "Limit Price" true true
                 (shown_or_empty (formData !! "limit_price"))]
         else [])
        ++
        (if is_type formData STOP || is_type formData STOP_LIMIT
         then [TextField "stop_price" "Stop Price" true true
                 (shown_or_empty (formData !! "stop_price"))]
         else [])
      else []).

Definition offers (formData : CreateOrderRequest) (name : string) : bool :=
  bool_decide (name ∈ map control_name (render formData)).

(** The component between two events: the form state, whether the
    mutation is in flight, and the requests handed to axios so far. *)
Record State : Type := mkState {
  formData : CreateOrderRequest;
  isLoading : bool;
  sent : list OrdersApi.Request
}.

Definition initial : State := mkState initialFormData false [].

(** What can happen to the mounted form: a change event of one of its
    controls, a submit, and the outcome of the request in flight. *)
Inductive Event : Type :=
  | Change (name value : string)
  | Submit
  | Success
  | Failure.

(** A control accepts a change event: a text field any text, a select
    one of its menu items. *)
Definition accepts (name value : string) (c : Control) : bool :=
  match c with
  | TextField n _ _ _ _ => bool_decide (n = name)
  | Select n _ options _ => bool_decide (n = name) && bool_decide (value ∈ options)
  end.

(** A [required] text field holds back the submit event while empty. *)
Definition satisfied (c : Control) : bool :=
  match c with
  | TextField _ _ _ required value => implb required (negb (String.eqb value ""))
  | Select _ _ _ _ => true
  end.

(** The submit button is [disabled] while the mutation is loading. *)
Definition submittable (st : State) : bool :=
  negb (isLoading st) && forallb satisfied (render (formData st)).

(** [handleSubmit]: [createOrderMutation.mutate(formData)]. *)
Definition handleSubmit (env : option string) (st : State) : State :=
  mkState (formData st) true (sent st ++ [OrdersApi.createOrder env (formData st)]).

Definition step (env : option string) (st : State) (e : Event) : option State :=
  match e with
  | Change name value =>
      if existsb (accepts name value) (render (formData st))
      then Some (mkState (handleChange name (JStr value) (formData st))
                         (isLoading st) (sent st))
      else None
  | Submit => if submittable st then Some (handleSubmit env st) else None
  | Success =>
      if isLoading st then Some (mkState initialFormData false (sent st)) else None
  | Failure =>
      if isLoading st then Some (mkState (formData st) false (sent st)) else None
  end.

Fixpoint run (env : option string) (events : list Event) (st : State) : option State :=
  match events with
  | [] => Some st
  | e :: rest =>
      match step env st e with
      | Some st' => run env rest st'
      | None => None
      end
  end.

(** The orders created through the form: the bodies of the requests sent. *)
Definition created (st : State) : list CreateOrderRequest :=
  omap (fun r => match OrdersApi.body r with
                 | OrdersApi.OrderBody o => Some o
                 | _ => None
                 end) (sent st).

Definition has_type (order : CreateOrderRequest) (ts : list OrderType) : Prop :=
  exists t, t ∈ ts /\ order !! "order_type" = Some (JStr (OrderType_value t)).

(** The rule for one created order as the specification words it: no
    [price]; [limit_price] exactly for limit and stop-limit orders,
    [stop_price] exactly for stop and stop-limit orders; a market order
    with neither. *)
Definition type_specific_prices_only (order : CreateOrderRequest) : Prop :=
  order !! "price" = None
  /\ (is_Some (order !! "limit_price") <-> has_type order [LIMIT; STOP_LIMIT])
  /\ (is_Some (order !! "stop_price") <-> has_type order [STOP; STOP_LIMIT])
  /\ (has_type order [MARKET] ->
      order !! "limit_price" = None /\ order !! "stop_price" = None).

(** The names of the six controls that are always rendered. *)
Definition base_names : list string :=
  ["title"; "symbol"; "quantity"; "order_type"; "side"; "provider"].

(** An event that does not move the form away from a market order. *)
Definition keeps_market (e : Event) : Prop :=
  forall value, e = Change "order_type" value -> value = OrderType_value MARKET.

(** Invariants of the form: no [price] member, in the form state and in
    every order created; every created order has the price its type
    requires; and, for a form that stayed a market order, no price member
    at all. *)
Definition no_price (st : State) : Prop :=
  formData st !! "price" = None
  /\ forall order, order ∈ created st -> order !! "price" = None.

Definition has_required_prices (order : CreateOrderRequest) : Prop :=
  (has_type order [LIMIT; STOP_LIMIT] -> is_Some (order !! "limit_price"))
  /\ (has_type order [STOP; STOP_LIMIT] -> is_Some (order !! "stop_price")).

Definition plain_market (order : CreateOrderRequest) : Prop :=
  is_type order MARKET = true
  /\ order !! "limit_price" = None
  /\ order !! "stop_price" = None.

Definition stays_market (st : State) : Prop :=
  plain_market (formData st) /\ forall order, order ∈ created st -> plain_market order.

End CreateOrderForm.

(** ** features/discord_integration/types.ts *)

Module WebhookTypes.

Inductive WebhookEvent : Type :=
  | ORDER_CREATED
  | ORDER_UPDATED
  | ORDER_CANCELLED
  | ORDER_FILLED
  | ORDER_FAILED.

#[global] Instance WebhookEvent_eq_dec : EqDecision WebhookEvent.
Proof. solve_decision. Defined.

Definition WebhookEvent_value (e : WebhookEvent) : string :=
  match e with
  | ORDER_CREATED => "order_created"
  | ORDER_UPDATED => "order_updated"
  | ORDER_CANCELLED => "order_cancelled"
  | ORDER_FILLED => "order_filled"
  | ORDER_FAILED => "order_failed"
  end.

(** [Object.values(WebhookEvent)], in declaration order. *)
Definition WebhookEvent_values : list WebhookEvent :=
  [ORDER_CREATED; ORDER_UPDATED; ORDER_CANCELLED; ORDER_FILLED; ORDER_FAILED].

(** The event types as the specification names them. *)
Definition event_type_name (e : WebhookEvent) : string :=
  match e with
  | ORDER_CREATED => "created"
  | ORDER_UPDATED => "updated"
  | ORDER_CANCELLED => "cancelled"
  | ORDER_FILLED => "filled"
  | ORDER_FAILED => "failed"
  end.

Record WebhookConfig : Type := mkWebhookConfig {
  id : nat;
  name : string;
  url : string;
  events : list WebhookEvent;
  is_active : bool;
  created_at : string;
  updated_at : string
}.

#[global] Instance WebhookConfig_eq_dec : EqDecision WebhookConfig.
Proof. solve_decision. Defined.

Module Create.
Record CreateWebhookRequest : Type := mkCreateWebhookRequest {
  name : string;
  url : string;
  events : list WebhookEvent
}.
End Create.

(** Every member of [UpdateWebhookRequest] is optional; [None] is a
    member the object does not have. *)
Module Update.
Record UpdateWebhookRequest : Type := mkUpdateWebhookRequest {
  name : option string;
  url : option string;
  events : option (list WebhookEvent);
  is_active : option bool
}.

(** The member names of the object, as they reach the request body. *)
Definition members (u : UpdateWebhookRequest) : list string :=
  (if bool_decide (is_Some (name u)) then ["name"] else [])
  ++ (if bool_decide (is_Some (url u)) then ["url"] else [])
  ++ (if bool_decide (is_Some (events u)) then ["events"] else [])
  ++ (if bool_decide (is_Some (is_active u)) then ["is_active"] else []).
End Update.

End WebhookTypes.

(** ** features/discord_integration/api.ts *)

Module WebhookApi.
Import WebhookTypes.

Inductive Body : Type :=
  | NoBody
  | CreateBody (webhook : Create.CreateWebhookRequest)
  | UpdateBody (webhook : Update.UpdateWebhookRequest).

Record Request : Type := mkRequest {
  method : Method;
  url : string;
  body : Body
}.

Definition BASE_URL (env : option string) : string := API_URL env ++ "/api/webhooks".

Definition getWebhooks (env : option string) : Request :=
  mkRequest GET (BASE_URL env) NoBody.

Definition getWebhook (env : option string) (id : nat) : Request :=
  mkRequest GET (BASE_URL env ++ "/" ++ show_id id) NoBody.

Definition createWebhook (env : option string) (webhook : Create.CreateWebhookRequest) : Request :=
  mkRequest POST (BASE_URL env) (CreateBody webhook).

Definition updateWebhook (env : option string) (id : nat)
    (webhook : Update.UpdateWebhookRequest) : Request :=
  mkRequest PUT (BASE_URL env ++ "/" ++ show_id id) (UpdateBody webhook).

Definition deleteWebhook (env : option string) (id : nat) : Request :=
  mkRequest DELETE (BASE_URL env ++ "/" ++ show_id id) NoBody.

Definition testWebhook (env : option string) (id : nat) : Request :=
  mkRequest POST (BASE_URL env ++ "/" ++ show_id id ++ "/test") NoBody.

(** The member names of the object a request carries as its body. *)
Definition body_members (r : Request) : list string :=
  match body r with
  | NoBody => []
  | CreateBody _ => ["name"; "url"; "events"]
  | UpdateBody webhook => Update.members webhook
  end.

End WebhookApi.

(** ** features/discord_integration/components/WebhookList/WebhookList.tsx *)

Module WebhookList.
Import WebhookTypes.

Inductive Effect : Type :=
  | Send (r : WebhookApi.Request)
  | InvalidateQueries (key : string)
  | ConsoleError (msg : string).

(** [toggleWebhookMutation]: the mutation function builds the object
    literal [{ is_active }]; [onSuccess] invalidates the query. *)
Definition toggleWebhookMutation (env : option string) (id : nat) (is_active : bool)
    (ok : bool) : list Effect :=
  Send (WebhookApi.updateWebhook env id
          (Update.mkUpdateWebhookRequest None None None (Some is_active)))
    :: (if ok then [InvalidateQueries "webhooks"] else []).

Definition handleToggleActive (env : option string) (webhook : WebhookConfig)
    (ok : bool) : list Effect :=
  toggleWebhookMutation env (id webhook) (negb (is_active webhook)) ok
    ++ (if ok then [] else [ConsoleError "Failed to toggle webhook:"]).

Definition deleteWebhookMutation (env : option string) (id : nat) (ok : bool) : list Effect :=
  Send (WebhookApi.deleteWebhook env id)
    :: (if ok then [InvalidateQueries "webhooks"] else []).

Definition handleDelete (env : option string) (id : nat) (ok : bool) : list Effect :=
  deleteWebhookMutation env id ok
    ++ (if ok then [] else [ConsoleError "Failed to delete webhook:"]).

Definition handleTest (env : option string) (id : nat) (ok : bool) : list Effect :=
  Send (WebhookApi.testWebhook env id)
    :: (if ok then [] else [ConsoleError "Failed to test webhook:"]).

Definition requests (effects : list Effect) : list WebhookApi.Request :=
  omap (fun e => match e with Send r => Some r | _ => None end) effects.

End WebhookList.

(** ** features/discord_integration/components/CreateWebhookForm *)

Module CreateWebhookForm.
Import WebhookTypes.
Import Create.

Record State : Type := mkState {
  formData : CreateWebhookRequest;
  error : option string;
  isLoading : bool;
  sent : list WebhookApi.Request
}.

Definition emptyForm : CreateWebhookRequest := mkCreateWebhookRequest "" "" [].

Definition initial : State := mkState emptyForm None false [].

(** [events.includes(event)]. *)
Definition includes (l : list WebhookEvent) (event : WebhookEvent) : bool :=
  bool_decide (event ∈ l).

(** [handleSubmit], after [e.preventDefault()]. *)
Definition handleSubmit (env : option string) (st : State) : State :=
  if Nat.eqb (length (events (formData st))) 0
  then mkState (formData st) (Some "Please select at least one event")
               (isLoading st) (sent st)
  else mkState (formData st) (error st) true
               (sent st ++ [WebhookApi.createWebhook env (formData st)]).

(** [handleChange]: the two text inputs are named ["name"] and ["url"]. *)
Definition handleChange (input value : string) (st : State) : State :=
  let prev := formData st in
  let next :=
    if String.eqb input "name" then mkCreateWebhookRequest value (url prev) (events prev)
    else if String.eqb input "url" then mkCreateWebhookRequest (name prev) value (events prev)
    else prev in
  mkState next None (isLoading st) (sent st).

Definition handleEventToggle (event : WebhookEvent) (st : State) : State :=
  let prev := formData st in
  mkState
    (mkCreateWebhookRequest (name prev) (url prev)
       (if includes (events prev) event
        then filter (fun e => e <> event) (events prev)
        else events prev ++ [event]))
    None (isLoading st) (sent st).

(** [onSuccess] of [createWebhookMutation]. *)
Definition onSuccess (st : State) : State :=
  mkState emptyForm None false (sent st).

(** [error.response?.data?.detail], which is typed [any], by what
    [setError(detail || 'Failed to create webhook')] and the alert
    [{error && <Alert>{error}</Alert>}] make of it: a detail that is missing
    or falsy (no response, no data, [undefined], [null], the empty string,
    [0], [false]); a truthy detail that React renders as a text (a string as
    itself, a number as its digits, [true] and the empty array as nothing);
    and a truthy detail that is no valid React child (an object, or an array
    holding one, as the API sends for a validation error). *)
Inductive Detail : Type :=
  | FalsyDetail
  | RenderedDetail (text : string)
  | ObjectDetail.

(** The text of the alert after [onError]; [None] when the alert throws. *)
Definition alert_text (detail : Detail) : option string :=
  match detail with
  | FalsyDetail => Some "Failed to create webhook"
  | RenderedDetail text => Some text
  | ObjectDetail => None
  end.

(** [onError] of [createWebhookMutation], followed by the render it causes.
    The form data stays and the mutation is no longer loading; when the
    alert throws on the stored detail the form is gone, and there is no
    state to go on from. *)
Definition onError (detail : Detail) (st : State) : option State :=
  match alert_text detail with
  | Some text => Some (mkState (formData st) (Some text) false (sent st))
  | None => None
  end.

Inductive Event : Type :=
  | Change (input value : string)
  | Toggle (event : WebhookEvent)
  | Submit
  | Success
  | Failure (detail : Detail).

(** The submit event needs both [required] inputs filled and a button
    that is not disabled; the mutation's callbacks need a request in
    flight.  [None]: the event cannot happen, or the form does not survive
    it. *)
Definition step (env : option string) (st : State) (e : Event) : option State :=
  match e with
  | Change input value =>
      if bool_decide (input ∈ ["name"; "url"]) then Some (handleChange input value st) else None
  | Toggle event => Some (handleEventToggle event st)
  | Submit =>
      if negb (isLoading st)
         && negb (String.eqb (name (formData st)) "")
         && negb (String.eqb (url (formData st)) "")
      then Some (handleSubmit env st) else None
  | Success => if isLoading st then Some (onSuccess st) else None
  | Failure detail => if isLoading st then onError detail st else None
  end.

Fixpoint run (env : option string) (es : list Event) (st : State) : option State :=
  match es with
  | [] => Some st
  | e :: rest =>
      match step env st e with
      | Some st' => run env rest st'
      | None => None
      end
  end.

(** The webhook-creation requests sent so far. *)
Definition created (st : State) : list CreateWebhookRequest :=
  omap (fun r => match WebhookApi.body r with
                 | WebhookApi.CreateBody w => Some w
                 | _ => None
                 end) (sent st).

(** Every request sent so far carries at least one event. *)
Definition all_have_events (st : State) : Prop :=
  forall w, w ∈ created st -> events w <> [].

End CreateWebhookForm.

(** ** The order-chain engine *)

Module Engine.
Import Types.

(** Modelled from the spec: the condition types and chain types of
    section 3. *)
Inductive ConditionType : Type := on_fill | on_cancel | on_failure.

Inductive ChainType : Type := SEQUENTIAL | BRACKET | OCO.

#[global] Instance ConditionType_eq_dec : EqDecision ConditionType.
Proof. solve_decision. Defined.
#[global] Instance ChainType_eq_dec : EqDecision ChainType.
Proof. solve_decision. Defined.

(** [interface OrderEdge] of types.ts. *)
Record OrderEdge : Type := mkOrderEdge {
  from_order_id : nat;
  to_order_id : nat;
  condition_type : ConditionType;
  condition_data : gmap string JsVal
}.

#[global] Instance OrderEdge_eq_dec : EqDecision OrderEdge.
Proof. solve_decision. Defined.

(** Modelled from the spec: the Order Store, Chain Builder and Transition
    Engine (sections 3, 4.1 and 4.2) are not among the sources; only the
    request builders and the interfaces [Order] and [OrderEdge] are.
    An order of the store carries the request it was created from, its
    status, and its place in its chain. *)
Record ChainOrder : Type := mkChainOrder {
  spec : CreateOrderRequest;
  status : OrderStatus;
  chain_id : nat;
  chain_type : ChainType;
  chain_sequence : nat;
  fill : option (Z * string)
}.

(** Modelled from the spec: the two calls of the Venue Adapter contract
    (section 6) that the engine makes, keyed by the order. *)
Inductive VenueAction : Type :=
  | VenueSubmit (order : nat)
  | VenueCancel (order : nat).

#[global] Instance VenueAction_eq_dec : EqDecision VenueAction.
Proof. solve_decision. Defined.

(** Modelled from the spec: a committed transition (creation or status
    change), as the Notification Dispatcher reads it. *)
Inductive Transition : Type :=
  | Created (order : nat)
  | Moved (order : nat) (to : OrderStatus).

(** Modelled from the spec: the Order Store.  Orders and edges are flat,
    id-referenced records (section 9); besides them the store holds the id
    counters and two append-only logs: the venue calls made (with the edge
    that triggered each, if any) and the committed transitions. *)
Record Store : Type := mkStore {
  orders : gmap nat ChainOrder;
  edges : list OrderEdge;
  next_order_id : nat;
  next_chain_id : nat;
  actions : list (option OrderEdge * VenueAction);
  transitions : list Transition
}.

(** Modelled from the spec: a store with no order and no edge. *)
Definition empty_store : Store := mkStore ∅ [] 0 0 [] [].

(** Modelled from the spec: the error taxonomy of section 7. *)
Inductive Error : Type :=
  | ValidationError
  | SubmissionError
  | TransientError
  | ConflictError
  | DeliveryError.

(** Modelled from the spec: FILLED, CANCELLED and FAILED are terminal. *)
Definition terminal (s : OrderStatus) : bool :=
  match s with
  | FILLED | CANCELLED | FAILED => true
  | PENDING | ACTIVE => false
  end.

(** Modelled from the spec: the state machine of section 4.2, PENDING →
    ACTIVE → {FILLED, CANCELLED, FAILED}; any non-terminal → FAILED.  A
    report is forward progress when it is a transition of this machine. *)
Definition forward (current reported : OrderStatus) : bool :=
  match current, reported with
  | PENDING, ACTIVE => true
  | PENDING, FAILED => true
  | ACTIVE, FILLED => true
  | ACTIVE, CANCELLED => true
  | ACTIVE, FAILED => true
  | _, _ => false
  end.

(** Modelled from the spec: an order with another status, and with fill
    details. *)
Definition with_status (s : OrderStatus) (o : ChainOrder) : ChainOrder :=
  mkChainOrder (spec o) s (chain_id o) (chain_type o) (chain_sequence o) (fill o).

Definition with_fill (f : option (Z * string)) (o : ChainOrder) : ChainOrder :=
  mkChainOrder (spec o) (status o) (chain_id o) (chain_type o) (chain_sequence o) f.

(** Modelled from the spec: committing a status; the order changes and the
    transition is logged. *)
Definition set_status (order : nat) (s : OrderStatus) (st : Store) : Store :=
  mkStore (alter (with_status s) order (orders st)) (edges st)
          (next_order_id st) (next_chain_id st)
          (actions st) (transitions st ++ [Moved order s]).

(** Modelled from the spec: a venue call enters the log, with the edge that
    triggered it. *)
Definition record_action (cause : option OrderEdge) (a : VenueAction) (st : Store) : Store :=
  mkStore (orders st) (edges st) (next_order_id st) (next_chain_id st)
          (actions st ++ [(cause, a)]) (transitions st).

(** Modelled from the spec: a venue call on behalf of a dependent order.
    [venue a] tells whether the Venue Adapter, after its retries, carried
    the call out.  The call is recorded; when it succeeds the dependent
    takes the status [then_], when it has failed for good the dependent is
    marked FAILED and the triggering order's commit stands. *)
Definition dependent_action (venue : VenueAction -> bool) (cause : option OrderEdge)
    (a : VenueAction) (target : nat) (then_ : OrderStatus) (st : Store) : Store :=
  set_status target (if venue a then then_ else FAILED) (record_action cause a st).

(** Modelled from the spec: step 2 of [applyStatus] for one outgoing edge,
    after the source took the status [new].  The three rules are tried in
    the order section 4.2 lists them: an [on_fill] edge of a FILLED source
    submits a PENDING target and cancels an ACTIVE one that is not the
    source; an [on_cancel] edge of a CANCELLED source cancels a PENDING or
    ACTIVE target. *)
Definition edge_action (venue : VenueAction -> bool) (source : nat) (new : OrderStatus)
    (e : OrderEdge) (st : Store) : Store :=
  let target := to_order_id e in
  match condition_type e, new with
  | on_fill, FILLED =>
      match status <$> orders st !! target with
      | Some PENDING =>
          dependent_action venue (Some e) (VenueSubmit target) target ACTIVE st
      | Some ACTIVE =>
          if bool_decide (target <> source)
          then dependent_action venue (Some e) (VenueCancel target) target CANCELLED st
          else st
      | _ => st
      end
  | on_cancel, CANCELLED =>
      match status <$> orders st !! target with
      | Some PENDING | Some ACTIVE =>
          dependent_action venue (Some e) (VenueCancel target) target CANCELLED st
      | _ => st
      end
  | _, _ => st
  end.

(** Modelled from the spec: all outgoing edges of an order, in store
    order. *)
Definition outgoing (order : nat) (es : list OrderEdge) : list OrderEdge :=
  filter (fun e => from_order_id e = order) es.

(** Modelled from the spec: the commit of step 2; a FILLED report also
    stores its fill details. *)
Definition commit (order : nat) (reported : OrderStatus)
    (fillDetails : option (Z * string)) (st : Store) : Store :=
  let st' := set_status order reported st in
  match reported with
  | FILLED =>
      mkStore (alter (with_fill fillDetails) order (orders st')) (edges st')
              (next_order_id st') (next_chain_id st') (actions st') (transitions st')
  | _ => st'
  end.

(** Modelled from the spec: [applyStatus(orderId, reportedStatus,
    fillDetails)] of section 4.2, run under the chain's exclusive-execution
    unit, so as one step on the store: a no-op for an unknown or terminal
    order and for a report that is not forward progress; otherwise the
    commit, then the outgoing edges in store order. *)
Definition applyStatus (venue : VenueAction -> bool) (orderId : nat)
    (reportedStatus : OrderStatus) (fillDetails : option (Z * string))
    (st : Store) : Store :=
  match orders st !! orderId with
  | None => st
  | Some o =>
      if terminal (status o) || negb (forward (status o) reportedStatus) then st
      else
        foldl (fun s e => edge_action venue orderId reportedStatus e s)
              (commit orderId reportedStatus fillDetails st)
              (outgoing orderId (edges st))
  end.

(** Modelled from the spec: the venue calls that [st'] logged after [st],
    and those among them made for the edge [e]. *)
Definition triggered (st st' : Store) : list (option OrderEdge * VenueAction) :=
  drop (length (actions st)) (actions st').

Definition edge_actions (e : OrderEdge) (log : list (option OrderEdge * VenueAction))
    : list VenueAction :=
  omap (fun '(cause, a) => if bool_decide (cause = Some e) then Some a else None) log.

(** Modelled from the spec: the status of an order of the store. *)
Definition status_of (order : nat) (st : Store) : option OrderStatus :=
  status <$> orders st !! order.

(** *** Chain Builder *)

(** Modelled from the spec: a bracket has exactly 3 orders and an OCO
    exactly 2 (section 3); no number is fixed for a sequential chain. *)
Definition valid_cardinality (ty : ChainType) (n : nat) : bool :=
  match ty with
  | BRACKET => Nat.eqb n 3
  | OCO => Nat.eqb n 2
  | SEQUENTIAL => true
  end.

(** Modelled from the spec: an [on_fill] edge, and the edges i -> i+1 of a
    sequential chain. *)
Definition on_fill_edge (a b : nat) : OrderEdge := mkOrderEdge a b on_fill ∅.

Fixpoint sequential_edges (ids : list nat) : list OrderEdge :=
  match ids with
  | a :: (b :: _) as rest => on_fill_edge a b :: sequential_edges rest
  | _ => []
  end.

(** Modelled from the spec: the edge set of section 3 over the new ids, in
    chain order. *)
Definition chain_edges (ty : ChainType) (ids : list nat) : list OrderEdge :=
  match ty, ids with
  | OCO, [a; b] => [on_fill_edge a b; on_fill_edge b a]
  | BRACKET, [entry; tp; sl] =>
      [on_fill_edge entry tp; on_fill_edge entry sl;
       on_fill_edge tp sl; on_fill_edge sl tp]
  | SEQUENTIAL, _ => sequential_edges ids
  | _, _ => []
  end.

(** Modelled from the spec: the orders submitted at creation are the entry
    only (bracket), both legs (OCO), the first order only (sequential). *)
Definition initially_eligible (ty : ChainType) (ids : list nat) : list nat :=
  match ty with
  | OCO => ids
  | BRACKET | SEQUENTIAL => take 1 ids
  end.

(** Modelled from the spec: every order of a chain is created PENDING, and
    its creation is a committed transition. *)
Definition persist_order (ty : ChainType) (cid : nat) (st : Store)
    (entry : nat * (nat * CreateOrderRequest)) : Store :=
  let '(seq_no, (oid, request)) := entry in
  mkStore (<[oid := mkChainOrder request PENDING cid ty seq_no None]> (orders st))
          (edges st) (next_order_id st) (next_chain_id st)
          (actions st) (transitions st ++ [Created oid]).

(** Modelled from the spec: an order submitted at creation is ACTIVE. *)
Definition submit_initial (st : Store) (oid : nat) : Store :=
  set_status oid ACTIVE (record_action None (VenueSubmit oid) st).

(** Modelled from the spec: [createSequential], [createBracket] and
    [createOCO] of section 4.1 over one request shape.  The cardinality is
    validated first; then the whole chain is built on a copy of the store,
    and the copy is handed back only when every initially eligible order
    was accepted by the venue.  Chain ids, sequence numbers and edges are
    assigned here, so they are consistent by construction. *)
Definition createChain (venue : VenueAction -> bool) (ty : ChainType)
    (specs : list CreateOrderRequest) (st : Store) : Store * (Error + list nat) :=
  if negb (valid_cardinality ty (length specs)) then (st, inl ValidationError)
  else
    let ids := seq (next_order_id st) (length specs) in
    let cid := next_chain_id st in
    let allocated :=
      mkStore (orders st) (edges st ++ chain_edges ty ids)
              (next_order_id st + length specs) (S cid)
              (actions st) (transitions st) in
    let persisted :=
      foldl (persist_order ty cid) allocated (imap (fun i p => (i, p)) (zip ids specs)) in
    let eligible := initially_eligible ty ids in
    if forallb (fun oid => venue (VenueSubmit oid)) eligible
    then (foldl submit_initial persisted eligible, inr ids)
    else (st, inl SubmissionError).

(** Modelled from the spec: the three operations of section 4.1. *)
Definition createSequential venue (orderedSpecs : list CreateOrderRequest) :=
  createChain venue SEQUENTIAL orderedSpecs.

Definition createBracket venue (entry takeProfit stopLoss : CreateOrderRequest) :=
  createChain venue BRACKET [entry; takeProfit; stopLoss].

Definition createOCO venue (a b : CreateOrderRequest) :=
  createChain venue OCO [a; b].

(** Modelled from the spec: the chain-creation request shapes of section 6,
    as member names. *)
Definition bracket_shape : gset string := {["entry"; "take_profit"; "stop_loss"]}.
Definition oco_shape : gset string := {["order_a"; "order_b"]}.

(** Modelled from the spec: an OCO pair in the store, two distinct ACTIVE
    orders whose only outgoing edges are the mutual [on_fill] edges. *)
Definition oco_pair (st : Store) (a b : nat) : Prop :=
  a <> b
  /\ status_of a st = Some ACTIVE
  /\ status_of b st = Some ACTIVE
  /\ outgoing a (edges st) = [on_fill_edge a b]
  /\ outgoing b (edges st) = [on_fill_edge b a].

End Engine.

(** ** Notification Dispatcher *)

Module Dispatcher.
Import Types WebhookTypes.

(** Modelled from the spec: the Notification Dispatcher (section 4.4) is
    not among the sources; a subscription is the [WebhookConfig] of
    types.ts, its event set the [events] array, its flag [is_active]. *)
Definition event_type (t : Engine.Transition) : WebhookEvent :=
  match t with
  | Engine.Created _ => ORDER_CREATED
  | Engine.Moved _ FILLED => ORDER_FILLED
  | Engine.Moved _ CANCELLED => ORDER_CANCELLED
  | Engine.Moved _ FAILED => ORDER_FAILED
  | Engine.Moved _ _ => ORDER_UPDATED
  end.

(** Modelled from the spec: a delivery task, for one subscription and one
    transition, with its attempt count. *)
Record DeliveryTask : Type := mkDeliveryTask {
  subscription : nat;
  endpoint : string;
  event : WebhookEvent;
  transition : Engine.Transition;
  attempts : nat
}.

(** Modelled from the spec: the subscription is active and its event set
    contains the transition's event type. *)
Definition matches (t : Engine.Transition) (s : WebhookConfig) : bool :=
  is_active s && bool_decide (event_type t ∈ events s).

(** Modelled from the spec: one delivery task per active subscription whose
    event set contains the transition's event type. *)
Definition enqueue (subscriptions : list WebhookConfig) (t : Engine.Transition)
    : list DeliveryTask :=
  map (fun s => mkDeliveryTask (id s) (url s) (event_type t) t 0)
      (filter (fun s => matches t s = true) subscriptions).

(** Modelled from the spec: the tasks of a queue that are for one
    subscription. *)
Definition tasks_for (s : WebhookConfig) (queue : list DeliveryTask) : list DeliveryTask :=
  filter (fun task => subscription task = id s) queue.

End Dispatcher.

(** ** Statements in the specification's wording, and sample data *)

Module AsSpecified.
Import Types.

(** The request shapes as section 6 words them: a bracket is
    [{entry, take_profit, stop_loss}], an OCO is [{order_a, order_b}],
    each member the order spec handed in. *)
Definition sends_spec_shapes (env : option string)
    (entry takeProfit stopLoss a b : CreateOrderRequest) : Prop :=
  let bracket := OrdersApi.createBracketOrder env entry takeProfit stopLoss in
  let oco := OrdersApi.createOCOOrder env a b in
  (OrdersApi.fields bracket = Engine.bracket_shape
   /\ OrdersApi.field bracket "entry" = Some entry
   /\ OrdersApi.field bracket "take_profit" = Some takeProfit
   /\ OrdersApi.field bracket "stop_loss" = Some stopLoss)
  /\ (OrdersApi.fields oco = Engine.oco_shape
      /\ OrdersApi.field oco "order_a" = Some a
      /\ OrdersApi.field oco "order_b" = Some b).

(** Every order created through the form follows the type-specific price
    rule. *)
Definition form_orders_follow_price_rule (env : option string) : Prop :=
  forall events st,
    CreateOrderForm.run env events CreateOrderForm.initial = Some st ->
    forall order, order ∈ CreateOrderForm.created st ->
      CreateOrderForm.type_specific_prices_only order.

End AsSpecified.

Module Samples.
Import Types.

(** The bracket of section 8: a market entry, a limit take-profit at 160
    and a stop at 140, ten shares of AAPL each. *)
Definition aapl_entry : CreateOrderRequest :=
  <["symbol" := JStr "AAPL"]> (<["quantity" := JStr "10"]>
  (<["side" := JStr "buy"]> (<["order_type" := JStr "market"]> ∅))).

Definition aapl_take_profit : CreateOrderRequest :=
  <["symbol" := JStr "AAPL"]> (<["quantity" := JStr "10"]>
  (<["side" := JStr "sell"]> (<["order_type" := JStr "limit"]>
  (<["limit_price" := JStr "160"]> ∅)))).

Definition aapl_stop_loss : CreateOrderRequest :=
  <["symbol" := JStr "AAPL"]> (<["quantity" := JStr "10"]>
  (<["side" := JStr "sell"]> (<["order_type" := JStr "stop"]>
  (<["stop_price" := JStr "140"]> ∅)))).

(** A venue that accepts every call. *)
Definition accepting : Engine.VenueAction -> bool := fun _ => true.

(** An order of the list, by id and status. *)
Definition listed (id : nat) (status : OrderStatus) : Order :=
  mkOrder id "Buy AAPL" None status "AAPL" 10 MARKET BUY None None None
          "alpaca" None None None None None "2024-02-14T10:00:00" "2024-02-14T10:00:00".

(** What a user does to fill in a limit order and then switch the form
    back to a market order before submitting. *)
Definition limit_then_market : list CreateOrderForm.Event :=
  [ CreateOrderForm.Change "title" "Buy AAPL";
    CreateOrderForm.Change "symbol" "AAPL";
    CreateOrderForm.Change "quantity" "10";
    CreateOrderForm.Change "order_type" "limit";
    CreateOrderForm.Change "limit_price" "100";
    CreateOrderForm.Change "order_type" "market";
    CreateOrderForm.Submit ].

(** A plain market order, typed into a fresh form. *)
Definition market_only : list CreateOrderForm.Event :=
  [ CreateOrderForm.Change "title" "Buy AAPL";
    CreateOrderForm.Change "symbol" "AAPL";
    CreateOrderForm.Change "quantity" "10";
    CreateOrderForm.Submit ].

Definition discord_hook (id : nat) (events : list WebhookTypes.WebhookEvent)
    (is_active : bool) : WebhookTypes.WebhookConfig :=
  WebhookTypes.mkWebhookConfig id "alerts" "https://discord.com/api/webhooks/1"
    events is_active "2024-02-14T10:00:00" "2024-02-14T10:00:00".

(** A webhook form with name and url filled in and no event ticked. *)
Definition unticked_form : CreateWebhookForm.State :=
  CreateWebhookForm.mkState
    (WebhookTypes.Create.mkCreateWebhookRequest "alerts"
       "https://discord.com/api/webhooks/1" [])
    None false [].

(** The state of the order form after [market_only]. *)
Definition after_market_only : CreateOrderForm.State :=
  default CreateOrderForm.initial
    (CreateOrderForm.run None market_only CreateOrderForm.initial).

(** Two subscriptions: one for fills, one for creations only. *)
Definition fill_hook : WebhookTypes.WebhookConfig :=
  discord_hook 1 [WebhookTypes.ORDER_FILLED; WebhookTypes.ORDER_FAILED] true.

Definition creation_hook : WebhookTypes.WebhookConfig :=
  discord_hook 2 [WebhookTypes.ORDER_CREATED] true.

(** The store after an OCO chain of the two exit orders was created in an
    empty store: orders 0 and 1, both submitted. *)
Definition oco_store : Engine.Store :=
  fst (Engine.createOCO accepting aapl_take_profit aapl_stop_loss Engine.empty_store).

End Samples.

(** ** The earlier API client (api/orders.ts) and order form
       (components/CreateOrderForm.tsx), which know only the generic [price] *)

Module LegacyOrdersApi.
Import Types.

Definition getOrders (env : option string) : OrdersApi.Request :=
  OrdersApi.mkRequest GET (API_URL env ++ "/api/orders") OrdersApi.NoBody.

Definition getOrder (env : option string) (id : nat) : OrdersApi.Request :=
  OrdersApi.mkRequest GET (API_URL env ++ "/api/orders/" ++ show_id id) OrdersApi.NoBody.

Definition createOrder (env : option string) (order : CreateOrderRequest) : OrdersApi.Request :=
  OrdersApi.mkRequest POST (API_URL env ++ "/api/orders") (OrdersApi.OrderBody order).

Definition cancelOrder (env : option string) (id : nat) : OrdersApi.Request :=
  OrdersApi.mkRequest POST (API_URL env ++ "/api/orders/" ++ show_id id ++ "/cancel")
    OrdersApi.NoBody.

End LegacyOrdersApi.

Module LegacyCreateOrderForm.
Import Types.

Definition orderTypes : list string := ["market"; "limit"; "stop"; "stop_limit"].
Definition orderSides : list string := ["buy"; "sell"].
Definition providers : list string := ["alpaca"].

Definition initialFormData : CreateOrderRequest :=
  <["title" := JStr ""]>
  (<["symbol" := JStr ""]>
  (<["quantity" := JNum 0]>
  (<["order_type" := JStr "market"]>
  (<["side" := JStr "buy"]>
  (<["provider" := JStr "alpaca"]> ∅))))).

(** [formData.order_type !== 'market']. *)
Definition not_market (formData : CreateOrderRequest) : bool :=
  negb (bool_decide (formData !! "order_type" = Some (JStr "market"))).

(** The controls of the form; the single price input follows the selects. *)
Definition render (formData : CreateOrderRequest) : list CreateOrderForm.Control :=
  [ CreateOrderForm.TextField "title" "Order Title" false true
      (CreateOrderForm.shown (formData !! "title"));
    CreateOrderForm.TextField "symbol" "Symbol" false true
      (CreateOrderForm.shown (formData !! "symbol"));
    CreateOrderForm.TextField "quantity" "Quantity" true true
      (CreateOrderForm.shown (formData !! "quantity"));
    CreateOrderForm.Select "order_type" "Order Type" orderTypes
      (CreateOrderForm.shown (formData !! "order_type"));
    CreateOrderForm.Select "side" "Side" orderSides
      (CreateOrderForm.shown (formData !! "side"));
    CreateOrderForm.Select "provider" "Provider" providers
      (CreateOrderForm.shown (formData !! "provider")) ]
  ++ (if not_market formData
      then [CreateOrderForm.TextField "price" "Price" true true
              (CreateOrderForm.shown_or_empty (formData !! "price"))]
      else []).

Definition offers (formData : CreateOrderRequest) (name : string) : bool :=
  bool_decide (name ∈ map CreateOrderForm.control_name (render formData)).

(** The form state, the requests handed to axios, and the console. *)
Record State : Type := mkState {
  formData : CreateOrderRequest;
  sent : list OrdersApi.Request;
  console : list string
}.

Definition initial : State := mkState initialFormData [] [].

(** [handleSubmit]: the request is awaited inside a [try]; [ok] tells
    whether it resolved.  The form is neither disabled nor reset. *)
Definition handleSubmit (env : option string) (ok : bool) (st : State) : State :=
  mkState (formData st)
          (sent st ++ [LegacyOrdersApi.createOrder env (formData st)])
          (if ok then console st else console st ++ ["Failed to create order:"]).

Inductive Event : Type :=
  | Change (name value : string)
  | Submit (ok : bool).

Definition step (env : option string) (st : State) (e : Event) : option State :=
  match e with
  | Change name value =>
      if existsb (CreateOrderForm.accepts name value) (render (formData st))
      then Some (mkState (CreateOrderForm.handleChange name (JStr value) (formData st))
                         (sent st) (console st))
      else None
  | Submit ok =>
      if forallb CreateOrderForm.satisfied (render (formData st))
      then Some (handleSubmit env ok st)
      else None
  end.

Fixpoint run (env : option string) (events : list Event) (st : State) : option State :=
  match events with
  | [] => Some st
  | e :: rest =>
      match step env st e with
      | Some st' => run env rest st'
      | None => None
      end
  end.

Definition created (st : State) : list CreateOrderRequest :=
  omap (fun r => match OrdersApi.body r with
                 | OrdersApi.OrderBody o => Some o
                 | _ => None
                 end) (sent st).

(** Invariant of the form: neither type-specific price member exists, in
    the form state or in an order created, and an order created that is not
    a market order has a [price]. *)
Definition generic_price_only (order : CreateOrderRequest) : Prop :=
  order !! "limit_price" = None /\ order !! "stop_price" = None.

Definition priced_unless_market (order : CreateOrderRequest) : Prop :=
  not_market order = true -> is_Some (order !! "price").

Definition legacy_invariant (st : State) : Prop :=
  generic_price_only (formData st)
  /\ forall order, order ∈ created st ->
       generic_price_only order /\ priced_unless_market order.

End LegacyCreateOrderForm.

(** ** Further invariants of the current order form *)

Module OrderFormFacts.
Import Types CreateOrderForm.

(** The members every form state has: a type, a side and a provider out of
    the menus, and the three text members. *)
Definition well_formed (order : CreateOrderRequest) : Prop :=
  (exists t, order !! "order_type" = Some (JStr (OrderType_value t)))
  /\ (exists s, order !! "side" = Some (JStr (OrderSide_value s)))
  /\ order !! "provider" = Some (JStr "alpaca")
  /\ is_Some (order !! "title")
  /\ is_Some (order !! "symbol")
  /\ is_Some (order !! "quantity").

(** What the [required] inputs add at submission. *)
Definition filled_in (order : CreateOrderRequest) : Prop :=
  shown (order !! "title") <> ""
  /\ shown (order !! "symbol") <> ""
  /\ shown (order !! "quantity") <> "".

Definition orders_well_formed (st : State) : Prop :=
  well_formed (formData st)
  /\ forall order, order ∈ created st -> well_formed order /\ filled_in order.

(** The outcomes (success or failure) among a list of events. *)
Definition is_outcome (e : Event) : bool :=
  match e with
  | Success | Failure => true
  | Change _ _ | Submit => false
  end.

Definition completed (events : list Event) : nat :=
  length (filter (fun e => is_outcome e = true) events).

Definition in_flight (st : State) : nat := if isLoading st then 1 else 0.

End OrderFormFacts.

(** ** Further invariants of the webhook form *)

Module WebhookFormFacts.
Import WebhookTypes CreateWebhookForm.

(** No event is listed twice, in the form or in a request sent. *)
Definition events_distinct (st : State) : Prop :=
  NoDup (Create.events (formData st))
  /\ forall w, w ∈ created st -> NoDup (Create.events w).

Definition is_outcome (e : Event) : bool :=
  match e with
  | Success | Failure _ => true
  | Change _ _ | Toggle _ | Submit => false
  end.

Definition completed (events : list Event) : nat :=
  length (filter (fun e => is_outcome e = true) events).

Definition in_flight (st : State) : nat := if isLoading st then 1 else 0.

End WebhookFormFacts.

(** ** features/user_management/types.ts *)

Module UserTypes.

Record User : Type := mkUser {
  id : nat;
  username : string;
  email : string;
  is_active : bool;
  is_superuser : bool;
  created_at : string;
  updated_at : string
}.

Module Login.
Record LoginRequest : Type := mkLoginRequest {
  username : string;
  password : string
}.
End Login.

Module Register.
Record RegisterRequest : Type := mkRegisterRequest {
  username : string;
  email : string;
  password : string
}.
End Register.

Record LoginResponse : Type := mkLoginResponse {
  access_token : string;
  token_type : string;
  user : User
}.

Module Update.
Record UpdateUserRequest : Type := mkUpdateUserRequest {
  username : option string;
  email : option string;
  password : option string;
  old_password : option string
}.
End Update.

End UserTypes.

(** ** features/user_management/api.ts *)

Module UserApi.
Import UserTypes.

Inductive Body : Type :=
  | NoBody
  | LoginBody (credentials : Login.LoginRequest)
  | RegisterBody (userData : Register.RegisterRequest)
  | UpdateBody (userData : Update.UpdateUserRequest).

Record Request : Type := mkRequest {
  method : Method;
  url : string;
  body : Body
}.

Definition BASE_URL (env : option string) : string := API_URL env ++ "/api/users".

Definition login (env : option string) (credentials : Login.LoginRequest) : Request :=
  mkRequest POST (BASE_URL env ++ "/login") (LoginBody credentials).

Definition register (env : option string) (userData : Register.RegisterRequest) : Request :=
  mkRequest POST (BASE_URL env ++ "/register") (RegisterBody userData).

Definition getCurrentUser (env : option string) : Request :=
  mkRequest GET (BASE_URL env ++ "/me") NoBody.

Definition updateUser (env : option string) (userId : nat)
    (userData : Update.UpdateUserRequest) : Request :=
  mkRequest PUT (BASE_URL env ++ "/" ++ show_id userId) (UpdateBody userData).

Definition deleteUser (env : option string) (userId : nat) : Request :=
  mkRequest DELETE (BASE_URL env ++ "/" ++ show_id userId) NoBody.

Definition logout (env : option string) : Request :=
  mkRequest POST (BASE_URL env ++ "/logout") NoBody.

End UserApi.

(** ** features/user_management/context/AuthContext.tsx *)

Module AuthContext.
Import UserTypes.

(** The provider's three state variables, the [token] item of
    [localStorage], the requests handed to axios and the console. *)
Record World : Type := mkWorld {
  user : option User;
  isLoading : bool;
  error : option string;
  token : option string;
  requests : list UserApi.Request;
  console : list string
}.

(** The provider as mounted over a storage holding [stored]. *)
Definition mounted (stored : option string) : World :=
  mkWorld None true None stored [] [].

(** [if (token)]: an item that is absent or the empty string is falsy. *)
Definition truthy (s : option string) : bool :=
  match s with
  | Some v => negb (String.eqb v "")
  | None => false
  end.

(** [initAuth], run once by the effect; [reply] is the answer to
    [getCurrentUser], [None] when the request fails. *)
Definition initAuth (env : option string) (reply : option User) (w : World) : World :=
  if truthy (token w) then
    match reply with
    | Some u =>
        mkWorld (Some u) false (error w) (token w)
                (requests w ++ [UserApi.getCurrentUser env]) (console w)
    | None =>
        mkWorld (user w) false (error w) None
                (requests w ++ [UserApi.getCurrentUser env])
                (console w ++ ["Auth initialization failed:"])
    end
  else mkWorld (user w) false (error w) (token w) (requests w) (console w).

(** [login]; the boolean tells whether the error was thrown on. *)
Definition login (env : option string) (credentials : Login.LoginRequest)
    (reply : option LoginResponse) (w : World) : World * bool :=
  match reply with
  | Some response =>
      (mkWorld (Some (UserTypes.user response)) (isLoading w) None
               (Some (access_token response))
               (requests w ++ [UserApi.login env credentials]) (console w),
       false)
  | None =>
      (mkWorld (user w) (isLoading w)
               (Some "Login failed. Please check your credentials.") (token w)
               (requests w ++ [UserApi.login env credentials]) (console w),
       true)
  end.

Definition register (env : option string) (userData : Register.RegisterRequest)
    (reply : option User) (w : World) : World * bool :=
  match reply with
  | Some u =>
      (mkWorld (Some u) (isLoading w) None (token w)
               (requests w ++ [UserApi.register env userData]) (console w),
       false)
  | None =>
      (mkWorld (user w) (isLoading w)
               (Some "Registration failed. Please try again.") (token w)
               (requests w ++ [UserApi.register env userData]) (console w),
       true)
  end.

Definition logout (env : option string) (ok : bool) (w : World) : World :=
  if ok
  then mkWorld None (isLoading w) (error w) None
               (requests w ++ [UserApi.logout env]) (console w)
  else mkWorld (user w) (isLoading w) (error w) (token w)
               (requests w ++ [UserApi.logout env])
               (console w ++ ["Logout failed:"]).

(** A page reload: the provider is mounted afresh over the storage the
    old one leaves behind, and [initAuth] runs. *)
Definition reload (env : option string) (reply : option User) (w : World) : World :=
  initAuth env reply (mounted (token w)).

End AuthContext.

(** ** features/user_management/components/RegisterForm/RegisterForm.tsx *)

Module RegisterForm.
Import UserTypes Register.

Record State : Type := mkState {
  formData : RegisterRequest;
  confirmPassword : string;
  validationError : option string;
  auth : AuthContext.World
}.

Definition initial (auth : AuthContext.World) : State :=
  mkState (mkRegisterRequest "" "" "") "" None auth.

(** [handleSubmit], after [e.preventDefault()]. *)
Definition handleSubmit (env : option string) (reply : option User) (st : State) : State :=
  if negb (String.eqb (password (formData st)) (confirmPassword st))
  then mkState (formData st) (confirmPassword st) (Some "Passwords do not match") (auth st)
  else
    let '(w, thrown) := AuthContext.register env (formData st) reply (auth st) in
    mkState (formData st) (confirmPassword st) (validationError st)
      (if thrown
       then AuthContext.mkWorld (AuthContext.user w) (AuthContext.isLoading w)
              (AuthContext.error w) (AuthContext.token w) (AuthContext.requests w)
              (AuthContext.console w ++ ["Registration error:"])
       else w).

(** [handleChange]: the inputs are named [username], [email], [password]
    and [confirmPassword]. *)
Definition handleChange (name value : string) (st : State) : State :=
  if String.eqb name "confirmPassword"
  then mkState (formData st) value None (auth st)
  else
    let prev := formData st in
    mkState
      (if String.eqb name "username" then mkRegisterRequest value (email prev) (password prev)
       else if String.eqb name "email" then mkRegisterRequest (username prev) value (password prev)
       else if String.eqb name "password" then mkRegisterRequest (username prev) (email prev) value
       else prev)
      (confirmPassword st) None (auth st).

(** The text of the alert, [error || validationError], shown when truthy. *)
Definition alert (st : State) : option string :=
  let shown := if AuthContext.truthy (AuthContext.error (auth st))
               then AuthContext.error (auth st)
               else validationError st in
  if AuthContext.truthy shown then shown else None.

(** The registration requests among the requests sent. *)
Definition registrations (w : AuthContext.World) : list RegisterRequest :=
  omap (fun r => match UserApi.body r with
                 | UserApi.RegisterBody d => Some d
                 | _ => None
                 end) (AuthContext.requests w).

End RegisterForm.

(** ** App.tsx: the routes *)

Module App.
Import UserTypes.

Inductive Page : Type := AuthPage | OrderManagementPage | DiscordIntegrationPage.

Inductive Element : Type :=
  | Show (page : Page)
  | Navigate (to : string)
  | Nothing.

Definition ProtectedRoute (user : option User) (children : Page) : Element :=
  match user with
  | None => Navigate "/auth"
  | Some _ => Show children
  end.

(** The four routes of [AppRoutes], and the case that none matches. *)
Inductive Route : Type := auth_route | orders_route | discord_route | root_route | no_route.

Definition element (user : option User) (r : Route) : Element :=
  match r with
  | auth_route => Show AuthPage
  | orders_route => ProtectedRoute user OrderManagementPage
  | discord_route => ProtectedRoute user DiscordIntegrationPage
  | root_route => Navigate "/orders"
  | no_route => Nothing
  end.

(** The route a path matches, for the paths as [AppRoutes] spells them. *)
Definition matched (path : string) : Route :=
  if String.eqb path "/auth" then auth_route
  else if String.eqb path "/orders" then orders_route
  else if String.eqb path "/discord" then discord_route
  else if String.eqb path "/" then root_route
  else no_route.

(** What is on screen once at most [fuel] redirects were followed. *)
Fixpoint settle (fuel : nat) (user : option User) (r : Route) : Element :=
  match element user r with
  | Navigate to =>
      match fuel with
      | O => Navigate to
      | S fuel' => settle fuel' user (matched to)
      end
  | shown => shown
  end.

End App.

(** ** The tabbed pages *)

Module Pages.

Inductive Component : Type :=
  | OrderList | CreateOrderForm
  | WebhookList | CreateWebhookForm
  | LoginForm | RegisterForm.

Record Panel : Type := mkPanel {
  hidden : bool;
  content : option Component
}.

(** [TabPanel]: [hidden={value !== index}] and
    [{value === index && children}]. *)
Definition TabPanel (value index : nat) (children : Component) : Panel :=
  mkPanel (negb (Nat.eqb value index))
          (if Nat.eqb value index then Some children else None).

Definition OrderManagementPage (tabValue : nat) : list Panel :=
  [TabPanel tabValue 0 OrderList; TabPanel tabValue 1 CreateOrderForm].

Definition DiscordIntegrationPage (tabValue : nat) : list Panel :=
  [TabPanel tabValue 0 WebhookList; TabPanel tabValue 1 CreateWebhookForm].

Definition AuthPage (tabValue : nat) : list Panel :=
  [TabPanel tabValue 0 LoginForm; TabPanel tabValue 1 RegisterForm].

(** The earlier page: [{tabValue === 0 && <OrderList />}] and
    [{tabValue === 1 && <CreateOrderForm />}]. *)
Definition OrderManagement (tabValue : nat) : list Component :=
  (if Nat.eqb tabValue 0 then [OrderList] else [])
  ++ (if Nat.eqb tabValue 1 then [CreateOrderForm] else []).

Definition on_screen (panels : list Panel) : list Component :=
  omap content panels.

End Pages.

Module MoreSamples.
Import Types.

(** A limit order typed into the earlier form. *)
Definition legacy_limit : list LegacyCreateOrderForm.Event :=
  [ LegacyCreateOrderForm.Change "title" "Buy AAPL";
    LegacyCreateOrderForm.Change "symbol" "AAPL";
    LegacyCreateOrderForm.Change "order_type" "limit";
    LegacyCreateOrderForm.Change "price" "150";
    LegacyCreateOrderForm.Submit true ].

Definition after_legacy_limit : LegacyCreateOrderForm.State :=
  default LegacyCreateOrderForm.initial
    (LegacyCreateOrderForm.run None legacy_limit LegacyCreateOrderForm.initial).

(** A webhook form filled in and submitted once. *)
Definition hook_submitted : list CreateWebhookForm.Event :=
  [ CreateWebhookForm.Change "name" "alerts";
    CreateWebhookForm.Change "url" "https://discord.com/api/webhooks/1";
    CreateWebhookForm.Toggle WebhookTypes.ORDER_FILLED;
    CreateWebhookForm.Toggle WebhookTypes.ORDER_FAILED;
    CreateWebhookForm.Toggle WebhookTypes.ORDER_FILLED;
    CreateWebhookForm.Toggle WebhookTypes.ORDER_CREATED;
    CreateWebhookForm.Submit ].

Definition after_hook_submitted : CreateWebhookForm.State :=
  default CreateWebhookForm.initial
    (CreateWebhookForm.run None hook_submitted CreateWebhookForm.initial).

Definition ticked_form : CreateWebhookForm.State :=
  CreateWebhookForm.mkState
    (WebhookTypes.Create.mkCreateWebhookRequest "alerts"
       "https://discord.com/api/webhooks/1" [WebhookTypes.ORDER_FILLED])
    None false [].

Definition jane : UserTypes.User :=
  UserTypes.mkUser 2 "jane" "jane@example.com" true false
    "2024-02-14T10:00:00" "2024-02-14T10:00:00".

Definition jane_registration : UserTypes.Register.RegisterRequest :=
  UserTypes.Register.mkRegisterRequest "jane" "jane@example.com" "password456".

(** The register form after a registration that the server refused. *)
Definition refused_registration : RegisterForm.State :=
  RegisterForm.handleSubmit None None
    (RegisterForm.mkState jane_registration "password456" None
       (AuthContext.mkWorld None false None None [] [])).

End MoreSamples.

(** ** Printed ids *)

Module Digits.

Definition is_digit (c : Ascii.ascii) : bool :=
  bool_decide (c ∈ ["0"; "1"; "2"; "3"; "4"; "5"; "6"; "7"; "8"; "9"]%char).

(** A non-empty string of decimal digits. *)
Fixpoint digits (s : string) : bool :=
  match s with
  | EmptyString => true
  | String c rest => is_digit c && digits rest
  end.

Definition numeral (s : string) : Prop := digits s = true /\ s <> "".

End Digits.

(** ** What a rendered order list can send *)

Module OrderListFacts.
Import Types.

Definition view_requests (v : OrderList.View) (ok : bool) : list OrdersApi.Request :=
  match v with
  | OrderList.TableView rows => concat (map (fun r => OrderList.row_requests r ok) rows)
  | _ => []
  end.

(** The one request a row offers: the cancel of an ACTIVE order, the delete
    of any other. *)
Definition offered (env : option string) (order : Order) : OrdersApi.Request :=
  if decide (status order = ACTIVE)
  then OrdersApi.cancelOrder env (id order)
  else OrdersApi.deleteOrder env (id order).

End OrderListFacts.

(** * Properties *)

Import Types.

(** ** Chain-creation requests (api.ts) *)

Example bracket_url :
  OrdersApi.url (OrdersApi.createBracketOrder None ∅ ∅ ∅)
  = "http://localhost:8000/api/orders/bracket".
Proof. reflexivity. Qed.

Example cancel_url :
  OrdersApi.url (OrdersApi.cancelOrder None 42)
  = "http://localhost:8000/api/orders/42/cancel".
Proof. vm_compute. reflexivity. Qed.

Example env_url :
  OrdersApi.url (OrdersApi.createOCOOrder (Some "https://api.example") ∅ ∅)
  = "https://api.example/api/orders/oco".
Proof. reflexivity. Qed.

Lemma bracket_fields env entry takeProfit stopLoss :
  OrdersApi.fields (OrdersApi.createBracketOrder env entry takeProfit stopLoss)
  = {["entry_order"; "take_profit"; "stop_loss"]}.
Proof.
  unfold OrdersApi.fields, OrdersApi.createBracketOrder; simpl.
  rewrite !dom_insert_L, dom_empty_L. set_solver.
Qed.

Lemma oco_fields env limitOrder stopOrder :
  OrdersApi.fields (OrdersApi.createOCOOrder env limitOrder stopOrder)
  = {["limit_order"; "stop_order"]}.
Proof.
  unfold OrdersApi.fields, OrdersApi.createOCOOrder; simpl.
  rewrite !dom_insert_L, dom_empty_L. set_solver.
Qed.

(** C1, as stated, fails: the bracket request built by [createBracketOrder]
    has no member [entry] (the member is [entry_order]), and the OCO request
    has no members [order_a] and [order_b]. *)
Lemma chain_request_shapes_differ :
  ~ AsSpecified.sends_spec_shapes None
      Samples.aapl_entry Samples.aapl_take_profit Samples.aapl_stop_loss
      Samples.aapl_take_profit Samples.aapl_stop_loss.
Proof.
  intros [(_ & Hentry & _) _].
  vm_compute in Hentry. discriminate Hentry.
Qed.

(** C1 (amended): every bracket request has exactly the members
    [entry_order], [take_profit] and [stop_loss], every OCO request exactly
    the members [limit_order] and [stop_order], and each member is the order
    spec handed to the builder, unchanged; both are POSTs, to [/bracket] and
    [/oco] under the orders URL. *)
Theorem chain_request_members env
    (entry takeProfit stopLoss limitOrder stopOrder : CreateOrderRequest) :
  let bracket := OrdersApi.createBracketOrder env entry takeProfit stopLoss in
  let oco := OrdersApi.createOCOOrder env limitOrder stopOrder in
  (OrdersApi.fields bracket = {["entry_order"; "take_profit"; "stop_loss"]}
   /\ OrdersApi.field bracket "entry_order" = Some entry
   /\ OrdersApi.field bracket "take_profit" = Some takeProfit
   /\ OrdersApi.field bracket "stop_loss" = Some stopLoss
   /\ OrdersApi.method bracket = POST
   /\ OrdersApi.url bracket = OrdersApi.BASE_URL env ++ "/bracket")
  /\ (OrdersApi.fields oco = {["limit_order"; "stop_order"]}
      /\ OrdersApi.field oco "limit_order" = Some limitOrder
      /\ OrdersApi.field oco "stop_order" = Some stopOrder
      /\ OrdersApi.method oco = POST
      /\ OrdersApi.url oco = OrdersApi.BASE_URL env ++ "/oco").
Proof.
  intros bracket oco. split.
  - split; [apply bracket_fields|].
    unfold OrdersApi.field; simpl. by simplify_map_eq.
  - split; [apply oco_fields|].
    unfold OrdersApi.field; simpl. by simplify_map_eq.
Qed.

(** ** The order list (OrderList.tsx) *)

Example active_row_requests :
  OrderList.row_requests (OrderList.row None (Samples.listed 7 ACTIVE)) true
  = [OrdersApi.cancelOrder None 7].
Proof. reflexivity. Qed.

Example filled_row_requests :
  OrderList.row_requests (OrderList.row None (Samples.listed 7 FILLED)) true
  = [OrdersApi.deleteOrder None 7].
Proof. reflexivity. Qed.

Lemma cancel_click env (o : Order) ok :
  OrderList.click (OrderList.cancelButton (OrderList.row env o)) ok
  = if decide (status o = ACTIVE)
    then OrderList.handleCancelOrder env (id o) ok
    else [].
Proof.
  unfold OrderList.click; simpl.
  destruct (decide (status o = ACTIVE)) as [Heq|Hne].
  - rewrite bool_decide_eq_false_2; [done | by intros H; apply H].
  - by rewrite bool_decide_eq_true_2.
Qed.

Lemma delete_click env (o : Order) ok :
  OrderList.click (OrderList.deleteButton (OrderList.row env o)) ok
  = if decide (status o = ACTIVE)
    then []
    else OrderList.handleDeleteOrder env (id o) ok.
Proof.
  unfold OrderList.click; simpl.
  destruct (decide (status o = ACTIVE)) as [Heq|Hne].
  - by rewrite bool_decide_eq_true_2.
  - by rewrite bool_decide_eq_false_2.
Qed.

(** The requests a row can issue: the cancel request for an ACTIVE order,
    the delete request for any other. *)
Lemma row_requests_by_status env (o : Order) ok :
  OrderList.row_requests (OrderList.row env o) ok
  = if decide (status o = ACTIVE)
    then [OrdersApi.cancelOrder env (id o)]
    else [OrdersApi.deleteOrder env (id o)].
Proof.
  unfold OrderList.row_requests, OrderList.buttons.
  cbn [map concat].
  rewrite cancel_click, delete_click.
  destruct (decide (status o = ACTIVE)); destruct ok; reflexivity.
Qed.

(** C4: the cancel button of a row is enabled exactly when the order is
    ACTIVE; for a PENDING, FILLED, CANCELLED or FAILED order it is disabled
    and a click issues nothing; a click on the enabled button issues the
    cancel request of that order.  Hence the only status change a user can
    drive from the list is ACTIVE to CANCELLED, and none starts from a
    terminal status.  The earlier list, which compares the status string
    with ['active'], disables the button for the same statuses. *)
Theorem cancel_only_when_active env (o : Order) (ok : bool) :
  (OrderList.disabled (OrderList.cancelButton (OrderList.row env o)) = false
     <-> status o = ACTIVE)
  /\ (status o ∈ [PENDING; FILLED; CANCELLED; FAILED] ->
      OrderList.disabled (OrderList.cancelButton (OrderList.row env o)) = true
      /\ OrderList.click (OrderList.cancelButton (OrderList.row env o)) ok = [])
  /\ (status o = ACTIVE ->
      OrderList.click (OrderList.cancelButton (OrderList.row env o)) ok
      = OrderList.handleCancelOrder env (id o) ok)
  /\ (forall s s', OrderList.user_transition env o s s'
                   <-> s = ACTIVE /\ status o = ACTIVE /\ s' = CANCELLED)
  /\ (OrderList.terminal (status o) = true ->
      forall s s', ~ OrderList.user_transition env o s s')
  /\ (forall st : OrderStatus,
        LegacyOrderList.cancelDisabled (OrderStatus_value st) = true <-> st <> ACTIVE).
Proof.
  assert (Htrans : forall s s', OrderList.user_transition env o s s'
                     <-> s = ACTIVE /\ status o = ACTIVE /\ s' = CANCELLED).
  { intros s s'. split.
    - intros [k Hin]. rewrite row_requests_by_status in Hin.
      destruct (decide (status o = ACTIVE)) as [Heq|Hne]; [done|].
      apply list_elem_of_singleton in Hin. discriminate Hin.
    - intros (-> & Heq & ->). rewrite <- Heq. apply (OrderList.user_cancel env o true).
      rewrite row_requests_by_status, decide_True by done.
      apply list_elem_of_singleton; reflexivity. }
  split_and!.
  - simpl. split.
    + intros H. apply bool_decide_eq_false in H.
      destruct (decide (status o = ACTIVE)); [done | by destruct H].
    + intros Heq. apply bool_decide_eq_false_2. by intros H.
  - intros Hin.
    assert (Hne : status o <> ACTIVE).
    { intros Heq. rewrite Heq in Hin.
      repeat (apply elem_of_cons in Hin as [Hin|Hin]; [discriminate Hin|]).
      by apply elem_of_nil in Hin. }
    split; [by apply bool_decide_eq_true_2 | by rewrite cancel_click, decide_False].
  - intros Heq. by rewrite cancel_click, decide_True.
  - apply Htrans.
  - intros Hterm s s' Hu. apply Htrans in Hu as (_ & Heq & _).
    rewrite Heq in Hterm. discriminate Hterm.
  - intros st. destruct st; split; intros H; first [ discriminate H | done | reflexivity ].
Qed.

Lemma cancel_only_when_active_witness :
  OrderList.click (OrderList.cancelButton (OrderList.row None (Samples.listed 7 FILLED))) true = []
  /\ OrderList.click (OrderList.cancelButton (OrderList.row None (Samples.listed 7 ACTIVE))) true
     = [OrderList.Send (OrdersApi.cancelOrder None 7); OrderList.Refetch].
Proof.
  split.
  - apply (cancel_only_when_active None (Samples.listed 7 FILLED) true).
    simpl. by apply (bool_decide_unpack _).
  - apply (cancel_only_when_active None (Samples.listed 7 ACTIVE) true).
    reflexivity.
Defined.

(** C5: the delete button of a row is disabled exactly when the order is
    ACTIVE; a click on it issues the delete request of the order when the
    order is not ACTIVE and nothing when it is, so no row of the rendered
    list issues a DELETE for an ACTIVE order. *)
Theorem delete_disabled_iff_active env (o : Order) (ok : bool) :
  (OrderList.disabled (OrderList.deleteButton (OrderList.row env o)) = true
     <-> status o = ACTIVE)
  /\ OrderList.click (OrderList.deleteButton (OrderList.row env o)) ok
     = (if decide (status o = ACTIVE) then []
        else OrderList.handleDeleteOrder env (id o) ok)
  /\ (forall orders rows,
        OrderList.render env false false (Some orders) = OrderList.TableView rows ->
        rows = map (OrderList.row env) orders)
  /\ (status o = ACTIVE ->
      forall q, q ∈ OrderList.row_requests (OrderList.row env o) ok ->
                OrdersApi.method q <> DELETE).
Proof.
  split_and!.
  - simpl. split; intros H; [by apply bool_decide_eq_true in H | by apply bool_decide_eq_true_2].
  - apply delete_click.
  - intros orders rows H. simpl in H. by injection H as <-.
  - intros Heq q Hq. rewrite row_requests_by_status, decide_True in Hq by done.
    apply list_elem_of_singleton in Hq. by subst q.
Qed.

Lemma delete_disabled_iff_active_witness :
  OrderList.click
    (OrderList.deleteButton (OrderList.row None (Samples.listed 7 ACTIVE))) true = []
  /\ OrderList.click
       (OrderList.deleteButton (OrderList.row None (Samples.listed 7 FAILED))) true
     = [OrderList.Send (OrdersApi.deleteOrder None 7); OrderList.Refetch].
Proof.
  split.
  - exact (proj1 (proj2 (delete_disabled_iff_active None (Samples.listed 7 ACTIVE) true))).
  - exact (proj1 (proj2 (delete_disabled_iff_active None (Samples.listed 7 FAILED) true))).
Defined.

(** ** Webhook subscriptions (discord_integration) *)

Import WebhookTypes.

(** C7: a webhook subscription is a record with an id, a url, an active
    flag and a list of events (besides its name and timestamps), and an
    event is one of exactly five: created, updated, cancelled, filled and
    failed, carried on the wire as [order_created] ... [order_failed].  No
    sixth event type exists, so none can occur in an event set. *)
Theorem webhook_event_types :
  (forall e : WebhookEvent, e ∈ WebhookEvent_values)
  /\ NoDup WebhookEvent_values
  /\ map event_type_name WebhookEvent_values
     = ["created"; "updated"; "cancelled"; "filled"; "failed"]
  /\ (forall e, WebhookEvent_value e = "order_" ++ event_type_name e)
  /\ (forall w : WebhookConfig,
        w = mkWebhookConfig (id w) (name w) (url w) (events w) (is_active w)
                            (created_at w) (updated_at w))
  /\ (forall (w : WebhookConfig) e, e ∈ events w ->
        event_type_name e ∈ ["created"; "updated"; "cancelled"; "filled"; "failed"]).
Proof.
  split_and!.
  - intros e. apply (bool_decide_unpack _). by destruct e.
  - apply (bool_decide_unpack _). reflexivity.
  - reflexivity.
  - by intros [].
  - by intros [].
  - intros w e _. apply (bool_decide_unpack _). by destruct e.
Qed.

Lemma webhook_event_types_witness :
  event_type_name ORDER_FILLED ∈ ["created"; "updated"; "cancelled"; "filled"; "failed"].
Proof.
  apply (proj2 (proj2 (proj2 (proj2 (proj2 webhook_event_types))))
           (Samples.discord_hook 1 [ORDER_FILLED] true) ORDER_FILLED).
  simpl. by apply (bool_decide_unpack _).
Defined.

(** *** The webhook-creation form *)

Lemma webhook_run_invariant env (P : CreateWebhookForm.State -> Prop) :
  (forall st e st', P st -> CreateWebhookForm.step env st e = Some st' -> P st') ->
  forall es st st',
    P st -> CreateWebhookForm.run env es st = Some st' -> P st'.
Proof.
  intros Hstep es. induction es as [|e es IH]; intros st st' HP Hrun; simpl in Hrun.
  - by injection Hrun as <-.
  - destruct (CreateWebhookForm.step env st e) as [st1|] eqn:He; [|done].
    eapply IH; [|exact Hrun]. eapply Hstep; eauto.
Qed.

Lemma handleSubmit_keeps_all_have_events env st :
  CreateWebhookForm.all_have_events st ->
  CreateWebhookForm.all_have_events (CreateWebhookForm.handleSubmit env st).
Proof.
  intros Hall w. unfold CreateWebhookForm.handleSubmit.
  destruct (Create.events (CreateWebhookForm.formData st)) as [|e es] eqn:Hev; simpl.
  - apply Hall.
  - unfold CreateWebhookForm.created; simpl. rewrite omap_app, elem_of_app; simpl.
    intros [Hin|Hin]; [by apply Hall|].
    apply list_elem_of_singleton in Hin as ->. by rewrite Hev.
Qed.

Lemma step_keeps_all_have_events env st e st' :
  CreateWebhookForm.all_have_events st ->
  CreateWebhookForm.step env st e = Some st' ->
  CreateWebhookForm.all_have_events st'.
Proof.
  intros Hall Hstep. destruct e; simpl in Hstep.
  - case_match; [|done]. by injection Hstep as <-.
  - by injection Hstep as <-.
  - case_match; [|done]. injection Hstep as <-.
    by apply handleSubmit_keeps_all_have_events.
  - case_match; [|done]. by injection Hstep as <-.
  - destruct (CreateWebhookForm.isLoading st); [|done].
    unfold CreateWebhookForm.onError in Hstep.
    destruct (CreateWebhookForm.alert_text detail); [|done].
    by injection Hstep as <-.
Qed.

(** C9: [handleSubmit] on a form whose events list is empty sends nothing
    and leaves the form data as it is; it only sets the error message.
    Hence every webhook-creation request the form ever sends carries at
    least one event type. *)
Theorem empty_events_never_sent env :
  (forall st,
     Create.events (CreateWebhookForm.formData st) = [] ->
     CreateWebhookForm.handleSubmit env st
     = CreateWebhookForm.mkState (CreateWebhookForm.formData st)
         (Some "Please select at least one event")
         (CreateWebhookForm.isLoading st) (CreateWebhookForm.sent st))
  /\ (forall es st,
        CreateWebhookForm.run env es CreateWebhookForm.initial = Some st ->
        forall w, w ∈ CreateWebhookForm.created st -> Create.events w <> []).
Proof.
  split.
  - intros st Hev. unfold CreateWebhookForm.handleSubmit. by rewrite Hev.
  - intros es st Hrun.
    apply (webhook_run_invariant env CreateWebhookForm.all_have_events
             (step_keeps_all_have_events env) es CreateWebhookForm.initial st);
      [|exact Hrun].
    intros w Hin. by apply elem_of_nil in Hin.
Qed.

Lemma empty_events_never_sent_witness :
  CreateWebhookForm.handleSubmit None Samples.unticked_form
  = CreateWebhookForm.mkState (CreateWebhookForm.formData Samples.unticked_form)
      (Some "Please select at least one event") false [].
Proof.
  apply (proj1 (empty_events_never_sent None) Samples.unticked_form).
  reflexivity.
Defined.

Example ticked_form_is_sent :
  CreateWebhookForm.created <$>
    CreateWebhookForm.run None
      [ CreateWebhookForm.Change "name" "alerts";
        CreateWebhookForm.Change "url" "https://discord.com/api/webhooks/1";
        CreateWebhookForm.Submit;
        CreateWebhookForm.Toggle ORDER_FILLED;
        CreateWebhookForm.Submit ] CreateWebhookForm.initial
  = Some [Create.mkCreateWebhookRequest "alerts" "https://discord.com/api/webhooks/1"
            [ORDER_FILLED]].
Proof. reflexivity. Qed.

(** *** The active switch of the webhook list *)

(** C10: toggling a webhook sends exactly one request, a PUT to the URL of
    that webhook whose body is the object with the single member
    [is_active], set to the negation of the current flag.  The body has no
    [name], no [url] and no [events]; these three do not even reach the
    handler's effects, which are the same for any webhook of the same id
    and flag, and besides the request the handler only invalidates the
    query (on success) or writes to the console (on failure): it assigns
    nothing to the subscription. *)
Theorem toggle_sends_only_is_active env (w : WebhookConfig) (ok : bool) :
  let body := Update.mkUpdateWebhookRequest None None None (Some (negb (is_active w))) in
  (exists r,
     WebhookList.requests (WebhookList.handleToggleActive env w ok) = [r]
     /\ WebhookApi.method r = PUT
     /\ WebhookApi.url r = WebhookApi.BASE_URL env ++ "/" ++ show_id (id w)
     /\ WebhookApi.body r = WebhookApi.UpdateBody body
     /\ WebhookApi.body_members r = ["is_active"])
  /\ Update.name body = None
  /\ Update.url body = None
  /\ Update.events body = None
  /\ Update.is_active body = Some (negb (is_active w))
  /\ WebhookList.handleToggleActive env w ok
     = WebhookList.Send (WebhookApi.updateWebhook env (id w) body)
         :: (if ok then [WebhookList.InvalidateQueries "webhooks"]
             else [WebhookList.ConsoleError "Failed to toggle webhook:"])
  /\ (forall w' : WebhookConfig,
        id w' = id w -> is_active w' = is_active w ->
        WebhookList.handleToggleActive env w' ok
        = WebhookList.handleToggleActive env w ok).
Proof.
  intros body. split_and!; try reflexivity.
  - eexists. split_and!; [by destruct ok | reflexivity..].
  - by destruct ok.
  - intros w' Hid Hactive. unfold WebhookList.handleToggleActive.
    by rewrite Hid, Hactive.
Qed.

Lemma toggle_sends_only_is_active_witness :
  WebhookList.handleToggleActive None
    (WebhookTypes.mkWebhookConfig 3 "renamed" "https://discord.com/api/webhooks/2"
       [ORDER_CREATED] true "2024-02-15T10:00:00" "2024-02-15T10:00:00") true
  = WebhookList.handleToggleActive None (Samples.discord_hook 3 [ORDER_FILLED] true) true.
Proof.
  apply (proj2 (proj2 (proj2 (proj2 (proj2 (proj2
           (toggle_sends_only_is_active None
              (Samples.discord_hook 3 [ORDER_FILLED] true) true)))))));
    reflexivity.
Defined.

Example toggle_request :
  WebhookList.handleToggleActive None (Samples.discord_hook 3 [ORDER_FILLED] true) true
  = [ WebhookList.Send
        (WebhookApi.mkRequest PUT "http://localhost:8000/api/webhooks/3"
           (WebhookApi.UpdateBody (Update.mkUpdateWebhookRequest None None None (Some false))));
      WebhookList.InvalidateQueries "webhooks" ].
Proof. reflexivity. Qed.

(** ** The order-creation form (CreateOrderForm.tsx) *)

Section OrderForm.
Import CreateOrderForm.

Lemma is_type_exclusive fd t t' :
  is_type fd t = true -> is_type fd t' = true -> t = t'.
Proof.
  unfold is_type. intros H H'.
  apply bool_decide_eq_true in H, H'. rewrite H in H'.
  by destruct t, t'.
Qed.

Lemma render_names fd :
  map control_name (render fd)
  = (base_names
     ++ (if is_type fd LIMIT || is_type fd STOP_LIMIT then ["limit_price"] else [])
     ++ (if is_type fd STOP || is_type fd STOP_LIMIT then ["stop_price"] else []))%list.
Proof.
  unfold render. rewrite map_app. f_equal.
  destruct (is_type fd MARKET) eqn:Hm; simpl.
  - destruct (is_type fd LIMIT) eqn:Hl; [by pose proof (is_type_exclusive _ _ _ Hm Hl)|].
    destruct (is_type fd STOP_LIMIT) eqn:Hsl; [by pose proof (is_type_exclusive _ _ _ Hm Hsl)|].
    destruct (is_type fd STOP) eqn:Hs; [by pose proof (is_type_exclusive _ _ _ Hm Hs)|].
    reflexivity.
  - rewrite map_app. by repeat case_match.
Qed.

Lemma has_type_is_type fd ts :
  has_type fd ts <-> existsb (is_type fd) ts = true.
Proof.
  unfold has_type. rewrite existsb_exists. split.
  - intros (t & Hin & Ht). exists t. split; [by apply list_elem_of_In|].
    by apply bool_decide_eq_true_2.
  - intros (t & Hin & Ht). exists t. split; [by apply list_elem_of_In|].
    by apply bool_decide_eq_true in Ht.
Qed.

Lemma offers_by_type fd :
  offers fd "limit_price" = (is_type fd LIMIT || is_type fd STOP_LIMIT)
  /\ offers fd "stop_price" = (is_type fd STOP || is_type fd STOP_LIMIT)
  /\ offers fd "price" = false.
Proof.
  unfold offers. rewrite render_names.
  by destruct (is_type fd LIMIT || is_type fd STOP_LIMIT),
              (is_type fd STOP || is_type fd STOP_LIMIT).
Qed.

(** A change event reaches [handleChange] only from a rendered control. *)
Lemma accepted_is_offered name value cs :
  existsb (accepts name value) cs = true -> name ∈ map control_name cs.
Proof.
  induction cs as [|c cs IH]; simpl; [done|].
  intros [Hc|Hcs]%orb_true_iff.
  - destruct c; simpl in *.
    + apply bool_decide_eq_true in Hc as ->. left.
    + apply andb_true_iff in Hc as [Hc _].
      apply bool_decide_eq_true in Hc as ->. left.
  - right. by apply IH.
Qed.

Lemma accepted_is_offered' name value fd :
  existsb (accepts name value) (render fd) = true -> offers fd name = true.
Proof. intros H. by apply bool_decide_eq_true_2, (accepted_is_offered name value). Qed.

Lemma accepted_order_type value fd :
  existsb (accepts "order_type" value) (render fd) = true ->
  value ∈ map OrderType_value OrderType_values.
Proof.
  unfold render. rewrite existsb_app. intros [H|H]%orb_true_iff.
  - simpl in H. rewrite !orb_false_r in H. by apply bool_decide_eq_true in H.
  - exfalso. by repeat case_match.
Qed.

Lemma created_handleSubmit env st :
  created (handleSubmit env st) = (created st ++ [formData st])%list.
Proof. unfold created, handleSubmit; simpl. by rewrite omap_app. Qed.

Lemma run_invariant env (Q : Event -> Prop) (P : State -> Prop) :
  (forall st e st', Q e -> P st -> step env st e = Some st' -> P st') ->
  forall es st st',
    Forall Q es -> P st -> run env es st = Some st' -> P st'.
Proof.
  intros Hstep es. induction es as [|e es IH]; intros st st' HQ HP Hrun; simpl in Hrun.
  - by injection Hrun as <-.
  - destruct (step env st e) as [st1|] eqn:He; [|done].
    apply Forall_cons in HQ as [HQe HQes].
    eapply IH; [exact HQes| |exact Hrun]. eapply Hstep; eauto.
Qed.

Lemma Forall_any (es : list Event) : Forall (fun _ => True) es.
Proof. by apply Forall_forall. Qed.

(** The destructuring of a step, shared by the invariants below. *)
Lemma step_cases env st e st' :
  step env st e = Some st' ->
  (exists name value,
      e = Change name value
      /\ existsb (accepts name value) (render (formData st)) = true
      /\ st' = mkState (handleChange name (JStr value) (formData st)) (isLoading st) (sent st))
  \/ (e = Submit /\ submittable st = true /\ st' = handleSubmit env st)
  \/ (formData st' = initialFormData /\ sent st' = sent st)
  \/ (formData st' = formData st /\ sent st' = sent st).
Proof.
  destruct e; simpl; intros H.
  - left. case_match; [|done]. injection H as <-. eauto.
  - right; left. case_match; [|done]. by injection H as <-.
  - right; right; left. case_match; [|done]. by injection H as <-.
  - right; right; right. case_match; [|done]. by injection H as <-.
Qed.

Lemma created_same_sent st st' : sent st' = sent st -> created st' = created st.
Proof. unfold created. by intros ->. Qed.

Lemma step_keeps_no_price env st e st' :
  no_price st -> step env st e = Some st' -> no_price st'.
Proof.
  intros [Hfd Hcreated] Hstep.
  apply step_cases in Hstep
    as [(name & value & -> & Hacc & ->)|[(-> & Hsub & ->)|[[Hf Hs]|[Hf Hs]]]].
  - split; [|exact Hcreated]. simpl. unfold handleChange.
    rewrite lookup_insert_ne; [done|]. intros ->.
    apply accepted_is_offered' in Hacc.
    by rewrite (proj2 (proj2 (offers_by_type _))) in Hacc.
  - split; [done|]. intros o. rewrite created_handleSubmit, elem_of_app.
    intros [Hin|Hin]; [by apply Hcreated|].
    by apply list_elem_of_singleton in Hin as ->.
  - split; [by rewrite Hf|]. by rewrite (created_same_sent _ _ Hs).
  - split; [by rewrite Hf|]. by rewrite (created_same_sent _ _ Hs).
Qed.

(** The [required] price inputs hold back a submit while they are empty. *)
Lemma submittable_has_required_prices st :
  submittable st = true -> has_required_prices (formData st).
Proof.
  unfold submittable. intros [_ Hall]%andb_true_iff.
  unfold render in Hall. rewrite forallb_app in Hall.
  apply andb_true_iff in Hall as [_ Hall].
  split; intros Ht%has_type_is_type; simpl in Ht; rewrite orb_false_r in Ht.
  - assert (Hm : is_type (formData st) MARKET = false).
    { destruct (is_type (formData st) MARKET) eqn:Hm; [|done].
      apply orb_true_iff in Ht as [Ht|Ht];
        by pose proof (is_type_exclusive _ _ _ Hm Ht). }
    rewrite Hm, Ht in Hall. simpl in Hall.
    apply andb_true_iff in Hall as [Hv _].
    destruct (formData st !! "limit_price"); [by eexists | done].
  - assert (Hm : is_type (formData st) MARKET = false).
    { destruct (is_type (formData st) MARKET) eqn:Hm; [|done].
      apply orb_true_iff in Ht as [Ht|Ht];
        by pose proof (is_type_exclusive _ _ _ Hm Ht). }
    rewrite Hm, Ht in Hall. simpl in Hall.
    rewrite forallb_app in Hall. apply andb_true_iff in Hall as [_ Hall].
    simpl in Hall. apply andb_true_iff in Hall as [Hv _].
    destruct (formData st !! "stop_price"); [by eexists | done].
Qed.

Lemma step_keeps_required_prices env st e st' :
  (forall o, o ∈ created st -> has_required_prices o) ->
  step env st e = Some st' ->
  forall o, o ∈ created st' -> has_required_prices o.
Proof.
  intros Hcreated Hstep.
  apply step_cases in Hstep
    as [(name & value & -> & Hacc & ->)|[(-> & Hsub & ->)|[[Hf Hs]|[Hf Hs]]]].
  - exact Hcreated.
  - intros o. rewrite created_handleSubmit, elem_of_app.
    intros [Hin|Hin]; [by apply Hcreated|].
    apply list_elem_of_singleton in Hin as ->.
    by apply submittable_has_required_prices.
  - by rewrite (created_same_sent _ _ Hs).
  - by rewrite (created_same_sent _ _ Hs).
Qed.

Lemma base_name_not_price name :
  name ∈ base_names -> name <> "limit_price" /\ name <> "stop_price".
Proof.
  intros H; split; intros ->; apply (bool_decide_pack _) in H; vm_compute in H; destruct H.
Qed.

Lemma step_keeps_stays_market env st e st' :
  keeps_market e -> stays_market st -> step env st e = Some st' -> stays_market st'.
Proof.
  intros Hkeep [(Hm & Hl & Hs) Hcreated] Hstep.
  apply step_cases in Hstep
    as [(name & value & -> & Hacc & ->)|[(-> & Hsub & ->)|[[Hf Hsent]|[Hf Hsent]]]].
  - split; [|exact Hcreated]. simpl.
    destruct (decide (name = "order_type")) as [->|Hne].
    + rewrite (Hkeep value eq_refl). unfold plain_market, is_type, handleChange.
      rewrite lookup_insert_eq, !lookup_insert_ne by done.
      split_and!; [by apply bool_decide_eq_true_2 | done | done].
    + apply accepted_is_offered in Hacc. rewrite render_names in Hacc.
      assert (Hl' : is_type (formData st) LIMIT || is_type (formData st) STOP_LIMIT = false).
      { apply orb_false_iff; split; apply not_true_is_false; intros Ht;
          by pose proof (is_type_exclusive _ _ _ Hm Ht). }
      assert (Hs' : is_type (formData st) STOP || is_type (formData st) STOP_LIMIT = false).
      { apply orb_false_iff; split; apply not_true_is_false; intros Ht;
          by pose proof (is_type_exclusive _ _ _ Hm Ht). }
      rewrite Hl', Hs', !app_nil_r in Hacc.
      apply base_name_not_price in Hacc as [Hnl Hns].
      unfold plain_market, is_type, handleChange in *.
      by rewrite !lookup_insert_ne by done.
  - split; [done|]. intros o. rewrite created_handleSubmit, elem_of_app.
    intros [Hin|Hin]; [by apply Hcreated|].
    by apply list_elem_of_singleton in Hin as ->.
  - split; [by rewrite Hf|]. by rewrite (created_same_sent _ _ Hsent).
  - split; [by rewrite Hf|]. by rewrite (created_same_sent _ _ Hsent).
Qed.

End OrderForm.

Example limit_then_market_order :
  CreateOrderForm.created <$>
    CreateOrderForm.run None Samples.limit_then_market CreateOrderForm.initial
  = Some [ <["limit_price" := JStr "100"]>
           (<["title" := JStr "Buy AAPL"]> (<["symbol" := JStr "AAPL"]>
           (<["quantity" := JStr "10"]> (<["order_type" := JStr "market"]>
           (<["side" := JStr "buy"]> (<["provider" := JStr "alpaca"]> ∅)))))) ].
Proof. vm_compute. reflexivity. Qed.

(** C8, as stated, fails: a user who picks a limit order, types a limit
    price and then switches the form back to a market order submits a
    market order that still carries [limit_price]. *)
Lemma market_order_keeps_stale_limit_price :
  ~ AsSpecified.form_orders_follow_price_rule None.
Proof.
  intros Hrule.
  assert (Hrun : exists st,
             CreateOrderForm.run None Samples.limit_then_market CreateOrderForm.initial = Some st
             /\ exists o, o ∈ CreateOrderForm.created st
                          /\ o !! "order_type" = Some (JStr "market")
                          /\ o !! "limit_price" = Some (JStr "100")).
  { eexists. split; [vm_compute; reflexivity|].
    eexists. split; [vm_compute; left|].
    split; vm_compute; reflexivity. }
  destruct Hrun as (st & Hrun & o & Hin & Hty & Hlimit).
  destruct (Hrule _ _ Hrun o Hin) as (_ & _ & _ & Hmarket).
  destruct Hmarket as [Hnone _].
  - exists MARKET. split; [left | exact Hty].
  - rewrite Hlimit in Hnone. discriminate Hnone.
Qed.

(** C8 (amended): the form never populates the generic [price] member, in
    its state or in any order it creates; it offers the [limit_price] input
    exactly when the order type is limit or stop-limit, the [stop_price]
    input exactly when it is stop or stop-limit, and no [price] input at
    all; every created order of type limit or stop-limit carries a
    [limit_price] and every one of type stop or stop-limit a [stop_price];
    and an order created by a form whose order type was never changed away
    from market is a market order with neither price member. *)
Theorem form_uses_type_specific_prices env events st :
  CreateOrderForm.run env events CreateOrderForm.initial = Some st ->
  (CreateOrderForm.formData st !! "price" = None
   /\ forall order, order ∈ CreateOrderForm.created st -> order !! "price" = None)
  /\ (forall formData,
        (CreateOrderForm.offers formData "limit_price" = true
           <-> CreateOrderForm.has_type formData [LIMIT; STOP_LIMIT])
        /\ (CreateOrderForm.offers formData "stop_price" = true
              <-> CreateOrderForm.has_type formData [STOP; STOP_LIMIT])
        /\ CreateOrderForm.offers formData "price" = false)
  /\ (forall order, order ∈ CreateOrderForm.created st ->
        (CreateOrderForm.has_type order [LIMIT; STOP_LIMIT] -> is_Some (order !! "limit_price"))
        /\ (CreateOrderForm.has_type order [STOP; STOP_LIMIT] -> is_Some (order !! "stop_price")))
  /\ (Forall CreateOrderForm.keeps_market events ->
      forall order, order ∈ CreateOrderForm.created st ->
        CreateOrderForm.has_type order [MARKET]
        /\ order !! "limit_price" = None
        /\ order !! "stop_price" = None).
Proof.
  intros Hrun. split; [|split; [|split]].
  - apply (run_invariant env (fun _ => True) CreateOrderForm.no_price
             (fun st e st' _ => step_keeps_no_price env st e st')
             events CreateOrderForm.initial st (Forall_any events)); [|exact Hrun].
    split; [reflexivity|]. intros o Hin. by apply elem_of_nil in Hin.
  - intros fd. destruct (offers_by_type fd) as (Hl & Hs & Hp).
    rewrite Hl, Hs, !has_type_is_type. simpl. rewrite !orb_false_r. done.
  - apply (run_invariant env (fun _ => True)
             (fun st => forall o, o ∈ CreateOrderForm.created st ->
                                  CreateOrderForm.has_required_prices o)
             (fun st e st' _ => step_keeps_required_prices env st e st')
             events CreateOrderForm.initial st (Forall_any events)); [|exact Hrun].
    intros o Hin. by apply elem_of_nil in Hin.
  - intros Hkeep order Hin.
    assert (Hstay : CreateOrderForm.stays_market st).
    { apply (run_invariant env CreateOrderForm.keeps_market CreateOrderForm.stays_market
               (step_keeps_stays_market env) events CreateOrderForm.initial st Hkeep);
        [|exact Hrun].
      split; [by split_and! |]. intros o Ho. by apply elem_of_nil in Ho. }
    destruct Hstay as [_ Hcreated]. destruct (Hcreated order Hin) as (Hm & Hl & Hs).
    split; [|by split].
    exists MARKET. split; [left | by apply bool_decide_eq_true in Hm].
Qed.

Lemma form_uses_type_specific_prices_witness :
  CreateOrderForm.run None Samples.market_only CreateOrderForm.initial
  = Some Samples.after_market_only
  /\ CreateOrderForm.formData Samples.after_market_only !! "price" = None.
Proof.
  assert (Hrun : CreateOrderForm.run None Samples.market_only CreateOrderForm.initial
                 = Some Samples.after_market_only) by (vm_compute; reflexivity).
  split; [exact Hrun|].
  exact (proj1 (proj1 (form_uses_type_specific_prices None Samples.market_only
                         Samples.after_market_only Hrun))).
Defined.

(** ** Notification Dispatcher *)

Section Dispatch.
Import Dispatcher.

Lemma tasks_for_unknown (s : WebhookConfig) subs t :
  id s ∉ map id subs -> tasks_for s (enqueue subs t) = [].
Proof.
  unfold tasks_for, enqueue. induction subs as [|x subs IH]; intros Hnot; [done|].
  apply not_elem_of_cons in Hnot as [Hne Hnot].
  rewrite filter_cons. destruct (decide (matches t x = true)); [|by apply IH].
  simpl. rewrite filter_cons_False by (simpl; congruence). by apply IH.
Qed.

Lemma tasks_for_subscription subs t (s : WebhookConfig) :
  NoDup (map id subs) -> s ∈ subs ->
  tasks_for s (enqueue subs t)
  = if matches t s then [mkDeliveryTask (id s) (url s) (event_type t) t 0] else [].
Proof.
  induction subs as [|x subs IH]; intros Hnd Hin; [by apply elem_of_nil in Hin|].
  simpl in Hnd. apply NoDup_cons in Hnd as [Hx Hnd].
  apply elem_of_cons in Hin as [->|Hin].
  - pose proof (tasks_for_unknown x subs t Hx) as Hrest.
    unfold tasks_for, enqueue in *. rewrite filter_cons.
    destruct (decide (matches t x = true)) as [Hm|Hm].
    + rewrite Hm. simpl. rewrite filter_cons_True by done. by rewrite Hrest.
    + apply not_true_is_false in Hm. by rewrite Hm.
  - assert (Hne : id x <> id s).
    { intros Heq. apply Hx. rewrite Heq. by apply list_elem_of_fmap_2. }
    specialize (IH Hnd Hin). unfold tasks_for, enqueue in *. rewrite filter_cons.
    destruct (decide (matches t x = true)); [|exact IH].
    simpl. by rewrite filter_cons_False.
Qed.

End Dispatch.

(** C6: for a committed transition and a subscription of the registry
    (subscription ids being unique), the queue holds a delivery task for the
    subscription exactly when the subscription is active and its event set
    contains the transition's event type, and then it holds exactly one; in
    particular a subscription whose event set lacks [filled] gets no task
    for a FILLED transition. *)
Theorem one_task_per_matching_subscription subs (t : Engine.Transition) (s : WebhookConfig) :
  NoDup (map id subs) -> s ∈ subs ->
  (Dispatcher.tasks_for s (Dispatcher.enqueue subs t) <> []
     <-> is_active s = true /\ Dispatcher.event_type t ∈ events s)
  /\ (is_active s = true /\ Dispatcher.event_type t ∈ events s ->
      Dispatcher.tasks_for s (Dispatcher.enqueue subs t)
      = [Dispatcher.mkDeliveryTask (id s) (url s) (Dispatcher.event_type t) t 0])
  /\ length (Dispatcher.tasks_for s (Dispatcher.enqueue subs t)) <= 1
  /\ (forall order, t = Engine.Moved order FILLED -> ORDER_FILLED ∉ events s ->
        Dispatcher.tasks_for s (Dispatcher.enqueue subs t) = []).
Proof.
  intros Hnd Hin. rewrite (tasks_for_subscription subs t s Hnd Hin).
  assert (Hm : Dispatcher.matches t s = true
               <-> is_active s = true /\ Dispatcher.event_type t ∈ events s).
  { unfold Dispatcher.matches. rewrite andb_true_iff, bool_decide_eq_true. done. }
  split; [|split; [|split]].
  - rewrite <- Hm. by destruct (Dispatcher.matches t s).
  - intros H%Hm. by rewrite H.
  - destruct (Dispatcher.matches t s); simpl; lia.
  - intros order -> Hnot.
    destruct (Dispatcher.matches _ s) eqn:Hmatch; [|done].
    destruct (proj1 Hm eq_refl) as [_ Hev]. by destruct Hnot.
Qed.

Lemma one_task_per_matching_subscription_witness :
  Dispatcher.tasks_for Samples.creation_hook
    (Dispatcher.enqueue [Samples.fill_hook; Samples.creation_hook] (Engine.Moved 5 FILLED)) = []
  /\ Dispatcher.tasks_for Samples.fill_hook
       (Dispatcher.enqueue [Samples.fill_hook; Samples.creation_hook] (Engine.Moved 5 FILLED))
     = [Dispatcher.mkDeliveryTask 1 "https://discord.com/api/webhooks/1" ORDER_FILLED
          (Engine.Moved 5 FILLED) 0].
Proof.
  assert (Hnd : NoDup (map id [Samples.fill_hook; Samples.creation_hook]))
    by (by apply (bool_decide_unpack _)).
  assert (Hin1 : Samples.creation_hook ∈ [Samples.fill_hook; Samples.creation_hook])
    by (by apply (bool_decide_unpack _)).
  assert (Hin2 : Samples.fill_hook ∈ [Samples.fill_hook; Samples.creation_hook])
    by (by apply (bool_decide_unpack _)).
  split.
  - destruct (one_task_per_matching_subscription
                [Samples.fill_hook; Samples.creation_hook] (Engine.Moved 5 FILLED)
                Samples.creation_hook Hnd Hin1) as (_ & _ & _ & Hnone).
    apply (Hnone 5 eq_refl). by apply (bool_decide_unpack _).
  - destruct (one_task_per_matching_subscription
                [Samples.fill_hook; Samples.creation_hook] (Engine.Moved 5 FILLED)
                Samples.fill_hook Hnd Hin2) as (_ & Hone & _).
    apply Hone. split; [reflexivity | by apply (bool_decide_unpack _)].
Defined.

(** ** Chain Builder *)

Example bracket_created :
  let '(st, result) :=
    Engine.createBracket Samples.accepting
      Samples.aapl_entry Samples.aapl_take_profit Samples.aapl_stop_loss
      Engine.empty_store in
  result = inr [0; 1; 2]
  /\ Engine.status_of 0 st = Some ACTIVE
  /\ Engine.status_of 1 st = Some PENDING
  /\ Engine.status_of 2 st = Some PENDING
  /\ Engine.actions st = [(None, Engine.VenueSubmit 0)]
  /\ length (Engine.edges st) = 4.
Proof. vm_compute. by split_and!. Qed.

Example bracket_rejected_by_venue :
  Engine.createBracket (fun _ => false)
    Samples.aapl_entry Samples.aapl_take_profit Samples.aapl_stop_loss Engine.empty_store
  = (Engine.empty_store, inl Engine.SubmissionError).
Proof. reflexivity. Qed.

Example bracket_of_two :
  Engine.createChain Samples.accepting Engine.BRACKET
    [Samples.aapl_entry; Samples.aapl_take_profit] Samples.oco_store
  = (Samples.oco_store, inl Engine.ValidationError).
Proof. reflexivity. Qed.

(** C3: a chain-creation request of the wrong cardinality (a bracket of
    other than 3 orders, an OCO of other than 2) fails with
    [ValidationError] and hands back the store it was given, so no order and
    no edge of the chain is persisted; indeed no failed creation changes
    the store. *)
Theorem wrong_cardinality_persists_nothing venue ty
    (specs : list CreateOrderRequest) (st : Engine.Store) :
  (ty = Engine.BRACKET /\ length specs <> 3) \/ (ty = Engine.OCO /\ length specs <> 2) ->
  Engine.createChain venue ty specs st = (st, inl Engine.ValidationError)
  /\ Engine.orders (fst (Engine.createChain venue ty specs st)) = Engine.orders st
  /\ Engine.edges (fst (Engine.createChain venue ty specs st)) = Engine.edges st
  /\ (forall venue' ty' specs' e,
        snd (Engine.createChain venue' ty' specs' st) = inl e ->
        fst (Engine.createChain venue' ty' specs' st) = st).
Proof.
  intros Hcard.
  assert (Hinvalid : Engine.valid_cardinality ty (length specs) = false).
  { destruct Hcard as [[-> Hn]|[-> Hn]]; simpl; by apply Nat.eqb_neq. }
  assert (Hfail : Engine.createChain venue ty specs st = (st, inl Engine.ValidationError)).
  { unfold Engine.createChain. by rewrite Hinvalid. }
  rewrite Hfail. split_and!; try reflexivity.
  intros venue' ty' specs' e. unfold Engine.createChain.
  destruct (negb _); [done|]. by destruct (forallb _ _).
Qed.

Lemma wrong_cardinality_persists_nothing_witness :
  Engine.createChain Samples.accepting Engine.OCO
    [Samples.aapl_entry; Samples.aapl_take_profit; Samples.aapl_stop_loss]
    Samples.oco_store
  = (Samples.oco_store, inl Engine.ValidationError).
Proof.
  apply (wrong_cardinality_persists_nothing Samples.accepting Engine.OCO
           [Samples.aapl_entry; Samples.aapl_take_profit; Samples.aapl_stop_loss]
           Samples.oco_store).
  right. split; [reflexivity | simpl; lia].
Defined.

(** ** Transition Engine *)

Section Transitions.
Import Engine.

Lemma orders_dependent_action venue cause a target s st :
  orders (dependent_action venue cause a target s st)
  = alter (with_status (if venue a then s else FAILED)) target (orders st).
Proof. reflexivity. Qed.

Lemma actions_dependent_action venue cause a target s st :
  actions (dependent_action venue cause a target s st) = (actions st ++ [(cause, a)])%list.
Proof. reflexivity. Qed.

Lemma edges_dependent_action venue cause a target s st :
  edges (dependent_action venue cause a target s st) = edges st.
Proof. reflexivity. Qed.

(** An edge action changes at most its target, and only a target that is
    PENDING or ACTIVE. *)
Lemma edge_action_keeps_terminal venue source new e st i o :
  orders st !! i = Some o -> terminal (status o) = true ->
  orders (edge_action venue source new e st) !! i = Some o.
Proof.
  intros Hi Hterm. unfold edge_action.
  destruct (decide (to_order_id e = i)) as [Heq|Hne].
  - rewrite Heq, Hi. simpl.
    destruct (status o); try discriminate Hterm; by repeat case_match.
  - repeat case_match; try done;
      by rewrite orders_dependent_action, lookup_alter_ne.
Qed.

Lemma foldl_edge_action_keeps_terminal venue source new es st i o :
  orders st !! i = Some o -> terminal (status o) = true ->
  orders (foldl (fun s e => edge_action venue source new e s) st es) !! i = Some o.
Proof.
  revert st. induction es as [|e es IH]; intros st Hi Hterm; [done|].
  simpl. apply IH; [|done]. by apply edge_action_keeps_terminal.
Qed.

Lemma edge_action_inert venue source new e st :
  new <> FILLED -> new <> CANCELLED -> edge_action venue source new e st = st.
Proof. intros Hf Hc. unfold edge_action. by destruct (condition_type e), new. Qed.

Lemma foldl_edge_action_inert venue source new es st :
  new <> FILLED -> new <> CANCELLED ->
  foldl (fun s e => edge_action venue source new e s) st es = st.
Proof.
  intros Hf Hc. induction es as [|e es IH]; [done|].
  simpl. by rewrite edge_action_inert.
Qed.

Lemma orders_commit order reported fillDetails st o :
  orders st !! order = Some o ->
  exists o', orders (commit order reported fillDetails st) !! order = Some o'
             /\ status o' = reported.
Proof.
  intros Ho. unfold commit.
  destruct reported; simpl; rewrite ?lookup_alter_eq, Ho; simpl; eauto.
Qed.

Lemma applyStatus_noop venue order reported fillDetails st o :
  orders st !! order = Some o ->
  terminal (status o) || negb (forward (status o) reported) = true ->
  applyStatus venue order reported fillDetails st = st.
Proof. intros Ho Hguard. unfold applyStatus. by rewrite Ho, Hguard. Qed.

Lemma applyStatus_replay venue venue' order reported fillDetails fillDetails' st :
  applyStatus venue' order reported fillDetails'
    (applyStatus venue order reported fillDetails st)
  = applyStatus venue order reported fillDetails st.
Proof.
  unfold applyStatus at 2 3.
  destruct (orders st !! order) as [o|] eqn:Ho.
  2:{ unfold applyStatus. by rewrite Ho. }
  destruct (terminal (status o) || negb (forward (status o) reported)) eqn:Hguard.
  { by apply (applyStatus_noop _ _ _ _ _ o). }
  apply orb_false_iff in Hguard as [Hnonterm Hfwd].
  apply negb_false_iff in Hfwd.
  destruct (orders_commit order reported fillDetails st o Ho) as (o' & Ho' & Hs').
  destruct (terminal reported) eqn:Hrep.
  - apply (applyStatus_noop _ _ _ _ _ o').
    + apply foldl_edge_action_keeps_terminal; [done | by rewrite Hs'].
    + by rewrite Hs', Hrep.
  - assert (reported = ACTIVE) as ->.
    { destruct (status o), reported; done. }
    rewrite foldl_edge_action_inert by done.
    apply (applyStatus_noop _ _ _ _ _ o'); [done|]. by rewrite Hs'.
Qed.

Lemma actions_commit order reported fillDetails st :
  actions (commit order reported fillDetails st) = actions st.
Proof. unfold commit. by destruct reported. Qed.

Lemma edge_actions_app e log log' :
  edge_actions e (log ++ log') = (edge_actions e log ++ edge_actions e log')%list.
Proof. unfold edge_actions. apply omap_app. Qed.

(** One edge logs at most one venue call, and logs it under its own name. *)
Lemma actions_edge_action venue source new e st :
  exists log,
    actions (edge_action venue source new e st) = (actions st ++ log)%list
    /\ forall e', length (edge_actions e' log) <= (if decide (e = e') then 1 else 0).
Proof.
  assert (Hnone : exists log,
             actions st = (actions st ++ log)%list
             /\ forall e', length (edge_actions e' log) <= (if decide (e = e') then 1 else 0)).
  { exists []. rewrite app_nil_r. split; [done|]. intros e'. simpl. case_decide; lia. }
  assert (Hone : forall a target s, exists log,
             actions (dependent_action venue (Some e) a target s st) = (actions st ++ log)%list
             /\ forall e', length (edge_actions e' log) <= (if decide (e = e') then 1 else 0)).
  { intros a target s. exists [(Some e, a)]. split; [done|]. intros e'. simpl.
    case_bool_decide as Hc; case_decide as Hd; simpl; try lia.
    destruct Hd. congruence. }
  unfold edge_action. by repeat case_match.
Qed.

Lemma foldl_edge_action_actions venue source new es st :
  exists log,
    actions (foldl (fun s e => edge_action venue source new e s) st es)
    = (actions st ++ log)%list
    /\ forall e', length (edge_actions e' log) <= length (filter (fun x => x = e') es).
Proof.
  revert st. induction es as [|e es IH]; intros st.
  - exists []. simpl. rewrite app_nil_r. split; [done|]. intros e'. simpl. lia.
  - simpl. destruct (actions_edge_action venue source new e st) as (l0 & Hl0 & Hcount0).
    destruct (IH (edge_action venue source new e st)) as (l1 & Hl1 & Hcount1).
    exists (l0 ++ l1)%list. split.
    + by rewrite Hl1, Hl0, app_assoc.
    + intros e'. rewrite edge_actions_app, length_app, filter_cons.
      specialize (Hcount0 e'). specialize (Hcount1 e').
      destruct (decide (e = e')); simpl; lia.
Qed.

Lemma length_filter_filter {A} (P Q : A -> Prop)
    `{forall x, Decision (P x)} `{forall x, Decision (Q x)} (l : list A) :
  length (filter Q (filter P l)) <= length (filter Q l).
Proof.
  induction l as [|x l IH]; [done|].
  rewrite !filter_cons. destruct (decide (P x)), (decide (Q x)); simpl;
    rewrite ?filter_cons; try destruct (decide (Q x)); simpl; try done; lia.
Qed.

Lemma NoDup_at_most_once {A} `{EqDecision A} (l : list A) (x : A) :
  NoDup l -> length (filter (fun y => y = x) l) <= 1.
Proof.
  induction l as [|y l IH]; intros Hnd; [simpl; lia|].
  apply NoDup_cons in Hnd as [Hy Hnd]. rewrite filter_cons.
  destruct (decide (y = x)) as [->|Hne]; [|by apply IH].
  simpl. assert (filter (fun y => y = x) l = []) as ->; [|simpl; lia].
  clear IH Hnd. induction l as [|z l IH]; [done|].
  apply not_elem_of_cons in Hy as [Hne Hy].
  rewrite filter_cons_False by congruence. by apply IH.
Qed.

Lemma applyStatus_actions venue order reported fillDetails st :
  exists log,
    actions (applyStatus venue order reported fillDetails st) = (actions st ++ log)%list
    /\ forall e, length (edge_actions e log) <= length (filter (fun x => x = e) (edges st)).
Proof.
  assert (Hnone : exists log,
             actions st = (actions st ++ log)%list
             /\ forall e, length (edge_actions e log)
                          <= length (filter (fun x => x = e) (edges st))).
  { exists []. rewrite app_nil_r. split; [done|]. intros e. simpl. lia. }
  unfold applyStatus. destruct (orders st !! order) as [o|]; [|done].
  destruct (terminal (status o) || negb (forward (status o) reported)); [done|].
  destruct (foldl_edge_action_actions venue order reported
              (outgoing order (edges st)) (commit order reported fillDetails st))
    as (log & Hlog & Hcount).
  exists log. rewrite Hlog, actions_commit. split; [done|].
  intros e. etrans; [apply Hcount|]. apply length_filter_filter.
Qed.

Lemma triggered_at_most_once venue order reported fillDetails st e :
  NoDup (edges st) ->
  length (edge_actions e (triggered st (applyStatus venue order reported fillDetails st))) <= 1.
Proof.
  intros Hnd.
  destruct (applyStatus_actions venue order reported fillDetails st) as (log & Hlog & Hcount).
  unfold triggered. rewrite Hlog, drop_app_length.
  etrans; [apply Hcount|]. by apply NoDup_at_most_once.
Qed.

Lemma status_of_Some order st s :
  status_of order st = Some s -> exists o, orders st !! order = Some o /\ status o = s.
Proof.
  unfold status_of. destruct (orders st !! order) as [o|]; [|done].
  simpl. intros [= <-]. eauto.
Qed.

(** Filling one leg of an OCO pair, when the venue carries out the cancel. *)
Lemma oco_fill venue fillDetails st a b :
  oco_pair st a b -> venue (VenueCancel b) = true ->
  let st1 := applyStatus venue a FILLED fillDetails st in
  status_of a st1 = Some FILLED
  /\ status_of b st1 = Some CANCELLED
  /\ triggered st st1 = [(Some (on_fill_edge a b), VenueCancel b)]
  /\ (forall venue' fillDetails', applyStatus venue' a FILLED fillDetails' st1 = st1)
  /\ (forall venue' reported fillDetails',
        applyStatus venue' b reported fillDetails' st1 = st1).
Proof.
  intros (Hab & Ha & Hb & Hout & _) Hvenue st1.
  destruct (status_of_Some _ _ _ Ha) as (oa & Hoa & Hsa).
  destruct (status_of_Some _ _ _ Hb) as (ob & Hob & Hsb).
  assert (Hst1 : st1 = dependent_action venue (Some (on_fill_edge a b)) (VenueCancel b)
                         b CANCELLED (commit a FILLED fillDetails st)).
  { unfold st1, applyStatus. rewrite Hoa, Hsa, Hout. simpl.
    unfold edge_action. simpl.
    rewrite !lookup_alter_ne, Hob by done. simpl. rewrite Hsb.
    by rewrite bool_decide_eq_true_2 by done. }
  assert (Hfilled : status_of a st1 = Some FILLED).
  { rewrite Hst1. unfold status_of. rewrite orders_dependent_action. simpl.
    rewrite lookup_alter_ne by done. rewrite !lookup_alter_eq, Hoa. done. }
  assert (Hcancelled : status_of b st1 = Some CANCELLED).
  { rewrite Hst1. unfold status_of. rewrite orders_dependent_action, Hvenue. simpl.
    rewrite lookup_alter_eq, !lookup_alter_ne, Hob by done. done. }
  split_and!; try done.
  - rewrite Hst1. unfold triggered. rewrite actions_dependent_action, actions_commit.
    by rewrite drop_app_length.
  - intros venue' fillDetails'.
    destruct (status_of_Some _ _ _ Hfilled) as (o & Ho & Hs).
    apply (applyStatus_noop _ _ _ _ _ o Ho). by rewrite Hs.
  - intros venue' reported fillDetails'.
    destruct (status_of_Some _ _ _ Hcancelled) as (o & Ho & Hs).
    apply (applyStatus_noop _ _ _ _ _ o Ho). by rewrite Hs.
Qed.


End Transitions.

Example bracket_lifecycle :
  let created :=
    fst (Engine.createBracket Samples.accepting
           Samples.aapl_entry Samples.aapl_take_profit Samples.aapl_stop_loss
           Engine.empty_store) in
  let entry_filled := Engine.applyStatus Samples.accepting 0 FILLED None created in
  let tp_filled := Engine.applyStatus Samples.accepting 1 FILLED None entry_filled in
  (Engine.status_of 1 entry_filled = Some ACTIVE
   /\ Engine.status_of 2 entry_filled = Some ACTIVE)
  /\ (Engine.status_of 1 tp_filled = Some FILLED
      /\ Engine.status_of 2 tp_filled = Some CANCELLED)
  /\ Engine.actions tp_filled
     = [ (None, Engine.VenueSubmit 0);
         (Some (Engine.on_fill_edge 0 1), Engine.VenueSubmit 1);
         (Some (Engine.on_fill_edge 0 2), Engine.VenueSubmit 2);
         (Some (Engine.on_fill_edge 1 2), Engine.VenueCancel 2) ].
Proof. vm_compute. by split_and!. Qed.

Example sequential_lifecycle :
  let created :=
    fst (Engine.createSequential Samples.accepting
           [Samples.aapl_entry; Samples.aapl_take_profit; Samples.aapl_stop_loss]
           Engine.empty_store) in
  let first_filled := Engine.applyStatus Samples.accepting 0 FILLED None created in
  Engine.actions created = [(None, Engine.VenueSubmit 0)]
  /\ Engine.status_of 1 created = Some PENDING
  /\ Engine.status_of 1 first_filled = Some ACTIVE
  /\ Engine.status_of 2 first_filled = Some PENDING.
Proof. vm_compute. by split_and!. Qed.

(** C2: [applyStatus] is idempotent.  Applying the same report
    [(orderId, reportedStatus)] a second time, whatever the venue then
    answers and whatever fill details it carries, gives back the store of the
    first application, logs included; over both applications each edge of
    the store has triggered at most one venue call.  For an OCO pair of
    [orderId] and [b], a FILLED report for [orderId] fills it and, the venue
    carrying out the cancel, makes [b] CANCELLED by exactly one cancel call
    for the edge between them; after that the duplicate report and every
    report for [b] leave the store as it is. *)
Theorem applyStatus_idempotent venue venue' orderId reportedStatus fillDetails fillDetails'
    (st : Engine.Store) :
  let st1 := Engine.applyStatus venue orderId reportedStatus fillDetails st in
  let st2 := Engine.applyStatus venue' orderId reportedStatus fillDetails' st1 in
  st2 = st1
  /\ (NoDup (Engine.edges st) ->
      forall e, length (Engine.edge_actions e (Engine.triggered st st2)) <= 1)
  /\ (forall b,
        Engine.oco_pair st orderId b -> reportedStatus = FILLED ->
        venue (Engine.VenueCancel b) = true ->
        Engine.status_of orderId st2 = Some FILLED
        /\ Engine.status_of b st2 = Some CANCELLED
        /\ Engine.triggered st st2
           = [(Some (Engine.on_fill_edge orderId b), Engine.VenueCancel b)]
        /\ (forall v reported details, Engine.applyStatus v b reported details st2 = st2)).
Proof.
  intros st1 st2.
  assert (Hsame : st2 = st1) by apply applyStatus_replay.
  rewrite Hsame. split; [done|]. split.
  - intros Hnd e. by apply triggered_at_most_once.
  - intros b Hpair -> Hvenue.
    destruct (oco_fill venue fillDetails st orderId b Hpair Hvenue)
      as (Ha & Hb & Hlog & _ & Hlate).
    by split_and!.
Qed.

Lemma applyStatus_idempotent_witness :
  Engine.status_of 1
    (Engine.applyStatus Samples.accepting 0 FILLED None
       (Engine.applyStatus Samples.accepting 0 FILLED None Samples.oco_store))
  = Some CANCELLED
  /\ Engine.triggered Samples.oco_store
       (Engine.applyStatus Samples.accepting 0 FILLED None
          (Engine.applyStatus Samples.accepting 0 FILLED None Samples.oco_store))
     = [(Some (Engine.on_fill_edge 0 1), Engine.VenueCancel 1)].
Proof.
  destruct (applyStatus_idempotent Samples.accepting Samples.accepting 0 FILLED None None
              Samples.oco_store) as (_ & _ & Hoco).
  destruct (Hoco 1) as (_ & Hb & Hlog & _).
  - unfold Engine.oco_pair. split_and!; [lia | reflexivity..].
  - reflexivity.
  - reflexivity.
  - split; [exact Hb | exact Hlog].
Defined.

(** * Further properties *)

(** ** The order form: the orders it creates *)

Section OrderFormMore.
Import CreateOrderForm OrderFormFacts.

(** Which change events the rendered form accepts. *)
Lemma accepted_cases name value fd :
  existsb (accepts name value) (render fd) = true ->
  name ∈ ["title"; "symbol"; "quantity"; "limit_price"; "stop_price"]
  \/ (name = "order_type" /\ exists t, value = OrderType_value t)
  \/ (name = "side" /\ exists s, value = OrderSide_value s)
  \/ (name = "provider" /\ value = "alpaca").
Proof.
  intros Hacc.
  destruct (decide (name = "order_type")) as [->|Hty].
  { right; left. split; [done|].
    apply accepted_order_type in Hacc. simpl in Hacc.
    repeat (apply elem_of_cons in Hacc as [->|Hacc]);
      [by exists MARKET | by exists LIMIT | by exists STOP | by exists STOP_LIMIT |].
    by apply elem_of_nil in Hacc. }
  destruct (decide (name = "side")) as [->|Hside].
  { right; right; left. split; [done|].
    unfold render in Hacc. rewrite existsb_app in Hacc.
    apply orb_true_iff in Hacc as [H|H]; [|exfalso; by repeat case_match].
    simpl in H. rewrite !orb_false_r in H. apply bool_decide_eq_true in H.
    repeat (apply elem_of_cons in H as [->|H]); [by exists BUY | by exists SELL |].
    by apply elem_of_nil in H. }
  destruct (decide (name = "provider")) as [->|Hprov].
  { right; right; right. split; [done|].
    unfold render in Hacc. rewrite existsb_app in Hacc.
    apply orb_true_iff in Hacc as [H|H]; [|exfalso; by repeat case_match].
    simpl in H. rewrite !orb_false_r in H. apply bool_decide_eq_true in H.
    by apply list_elem_of_singleton in H. }
  left. apply accepted_is_offered in Hacc. rewrite render_names in Hacc.
  apply elem_of_app in Hacc as [Hbase|Hprice].
  - unfold base_names in Hbase.
    repeat (apply elem_of_cons in Hbase as [->|Hbase]); try done;
      try (by apply (bool_decide_unpack _)).
    by apply elem_of_nil in Hbase.
  - apply elem_of_app in Hprice as [H|H]; case_match;
      try (by apply elem_of_nil in H);
      apply list_elem_of_singleton in H as ->; by apply (bool_decide_unpack _).
Qed.

Lemma handleChange_keeps_well_formed name value fd :
  existsb (accepts name value) (render fd) = true ->
  well_formed fd -> well_formed (handleChange name (JStr value) fd).
Proof.
  intros Hacc (Hty & Hside & Hprov & Htitle & Hsym & Hqty).
  unfold well_formed, handleChange.
  apply accepted_cases in Hacc as [Hin|[[-> [t ->]]|[[-> [s ->]]|[-> ->]]]].
  - repeat (apply elem_of_cons in Hin as [->|Hin]);
      try (by apply elem_of_nil in Hin);
      rewrite ?lookup_insert_eq, ?lookup_insert_ne by done;
      split_and!; eauto.
  - rewrite lookup_insert_eq, !lookup_insert_ne by done. split_and!; eauto.
  - rewrite lookup_insert_eq, !lookup_insert_ne by done. split_and!; eauto.
  - rewrite lookup_insert_eq, !lookup_insert_ne by done. split_and!; eauto.
Qed.

Lemma submittable_filled_in st : submittable st = true -> filled_in (formData st).
Proof.
  unfold submittable. intros [_ Hall]%andb_true_iff.
  unfold render in Hall. rewrite forallb_app in Hall.
  apply andb_true_iff in Hall as [Hall _]. simpl in Hall.
  apply andb_true_iff in Hall as [Ht Hall].
  apply andb_true_iff in Hall as [Hs Hall].
  apply andb_true_iff in Hall as [Hq _].
  apply negb_true_iff, String.eqb_neq in Ht, Hs, Hq. by split_and!.
Qed.

Lemma step_keeps_orders_well_formed env st e st' :
  orders_well_formed st -> step env st e = Some st' -> orders_well_formed st'.
Proof.
  intros [Hfd Hcreated] Hstep.
  apply step_cases in Hstep
    as [(name & value & -> & Hacc & ->)|[(-> & Hsub & ->)|[[Hf Hs]|[Hf Hs]]]].
  - split; [|exact Hcreated]. by apply handleChange_keeps_well_formed.
  - split; [done|]. intros o. rewrite created_handleSubmit, elem_of_app.
    intros [Hin|Hin]; [by apply Hcreated|].
    apply list_elem_of_singleton in Hin as ->.
    split; [done | by apply submittable_filled_in].
  - split; [|by rewrite (created_same_sent _ _ Hs)].
    rewrite Hf. unfold well_formed.
    split_and!; first [by exists MARKET | by exists BUY | by eexists].
  - split; [by rewrite Hf | by rewrite (created_same_sent _ _ Hs)].
Qed.

(** Every order the form creates has an order type and a side out of the
    enums, the provider alpaca, and a title, a symbol and a quantity that
    are not empty. *)
Theorem created_orders_well_formed env events st :
  run env events initial = Some st ->
  forall order, order ∈ created st ->
    has_type order OrderType_values
    /\ (exists s, order !! "side" = Some (JStr (OrderSide_value s)))
    /\ order !! "provider" = Some (JStr "alpaca")
    /\ shown (order !! "title") <> ""
    /\ shown (order !! "symbol") <> ""
    /\ shown (order !! "quantity") <> "".
Proof.
  intros Hrun order Hin.
  assert (Hinv : orders_well_formed st).
  { apply (run_invariant env (fun _ => True) orders_well_formed
             (fun st e st' _ => step_keeps_orders_well_formed env st e st')
             events initial st (Forall_any events)); [|exact Hrun].
    split; [|intros o Ho; by apply elem_of_nil in Ho].
    unfold well_formed.
    split_and!; first [by exists MARKET | by exists BUY | by eexists]. }
  destruct Hinv as [_ Hcreated].
  destruct (Hcreated order Hin) as [([t Ht] & Hside & Hprov & _) (Htitle & Hsym & Hqty)].
  split_and!; try done.
  exists t. split; [|done]. apply (bool_decide_unpack _). by destruct t.
Qed.

Lemma created_orders_well_formed_witness :
  run None Samples.market_only initial = Some Samples.after_market_only
  /\ (exists order, order ∈ created Samples.after_market_only
                    /\ order !! "provider" = Some (JStr "alpaca")).
Proof.
  assert (Hrun : run None Samples.market_only initial = Some Samples.after_market_only)
    by (vm_compute; reflexivity).
  split; [exact Hrun|].
  assert (Hin : created Samples.after_market_only <> []) by (vm_compute; discriminate).
  destruct (created Samples.after_market_only) as [|order rest] eqn:Hc; [done|].
  exists order. split; [left|].
  apply (created_orders_well_formed None Samples.market_only Samples.after_market_only Hrun).
  rewrite Hc. left.
Defined.

(** While a request is in flight the form sends no other: the requests
    sent are the outcomes received plus the one still awaited. *)
Lemma run_counts env events st st' :
  run env events st = Some st' ->
  in_flight st <= length (sent st) ->
  length (sent st') + in_flight st
  = length (sent st) + completed events + in_flight st'
  /\ in_flight st' <= length (sent st').
Proof.
  revert st. induction events as [|e events IH]; intros st Hrun Hle; simpl in Hrun.
  - injection Hrun as <-. unfold completed. simpl. lia.
  - destruct (step env st e) as [st1|] eqn:Hstep; [|done].
    assert (Hone : length (sent st1) + in_flight st
                   = length (sent st) + (if is_outcome e then 1 else 0) + in_flight st1
                   /\ in_flight st1 <= length (sent st1)).
    { unfold in_flight in *. destruct e; cbn [step] in Hstep.
      - destruct (existsb _ _); [|done]. injection Hstep as <-. simpl. lia.
      - unfold submittable in Hstep. destruct (isLoading st) eqn:Hl; [done|].
        cbn [negb andb] in Hstep. destruct (forallb _ _); [|done].
        injection Hstep as <-. simpl. rewrite length_app. simpl. lia.
      - destruct (isLoading st); [|done]. injection Hstep as <-. simpl in *. lia.
      - destruct (isLoading st); [|done]. injection Hstep as <-. simpl in *. lia. }
    destruct Hone as [Hone Hle1].
    destruct (IH st1 Hrun Hle1) as [Hrest Hle'].
    split; [|done]. unfold completed in *. rewrite filter_cons.
    destruct (is_outcome e).
    + rewrite decide_True by done. simpl in *. lia.
    + rewrite decide_False by done. simpl in *. lia.
Qed.

Theorem one_request_in_flight env events st :
  run env events initial = Some st ->
  length (sent st) = completed events + (if isLoading st then 1 else 0)
  /\ (isLoading st = true -> step env st Submit = None).
Proof.
  intros Hrun. split.
  - assert (Hle : in_flight initial <= length (sent initial)) by (unfold in_flight; simpl; lia).
    destruct (run_counts env events initial st Hrun Hle) as [Heq _].
    unfold in_flight in Heq. simpl in Heq. destruct (isLoading st); lia.
  - intros Hl. simpl. unfold submittable. by rewrite Hl.
Qed.

Lemma one_request_in_flight_witness :
  run None Samples.market_only initial = Some Samples.after_market_only
  /\ length (sent Samples.after_market_only) = 1.
Proof.
  assert (Hrun : run None Samples.market_only initial = Some Samples.after_market_only)
    by (vm_compute; reflexivity).
  split; [exact Hrun|].
  exact (proj1 (one_request_in_flight None Samples.market_only
                  Samples.after_market_only Hrun)).
Defined.

End OrderFormMore.

(** ** The earlier order form: only the generic price *)

Section LegacyForm.
Import LegacyCreateOrderForm.

Lemma legacy_render_names fd :
  map CreateOrderForm.control_name (render fd)
  = (CreateOrderForm.base_names ++ (if not_market fd then ["price"] else []))%list.
Proof. unfold render. rewrite map_app. by destruct (not_market fd). Qed.

Lemma legacy_offers_price fd :
  offers fd "price" = not_market fd
  /\ offers fd "limit_price" = false
  /\ offers fd "stop_price" = false.
Proof. unfold offers. rewrite legacy_render_names. by destruct (not_market fd). Qed.

Lemma legacy_created_handleSubmit env ok st :
  created (handleSubmit env ok st) = (created st ++ [formData st])%list.
Proof. unfold created, handleSubmit; simpl. by rewrite omap_app. Qed.

Lemma legacy_satisfied_priced fd :
  forallb CreateOrderForm.satisfied (render fd) = true -> priced_unless_market fd.
Proof.
  unfold render. rewrite forallb_app. intros [_ Hall]%andb_true_iff Hnm.
  rewrite Hnm in Hall. simpl in Hall. apply andb_true_iff in Hall as [Hv _].
  destruct (fd !! "price"); [by eexists | done].
Qed.

Lemma legacy_step_keeps_invariant env st e st' :
  legacy_invariant st -> step env st e = Some st' -> legacy_invariant st'.
Proof.
  intros [[Hl Hs] Hcreated] Hstep. destruct e as [name value|ok]; cbn [step] in Hstep.
  - destruct (existsb _ _) eqn:Hacc; [|done]. injection Hstep as <-.
    split; [|exact Hcreated]. simpl.
    apply accepted_is_offered in Hacc.
    apply (bool_decide_pack _) in Hacc. fold (offers (formData st) name) in Hacc.
    destruct (legacy_offers_price (formData st)) as (_ & Hnl & Hns).
    unfold generic_price_only, CreateOrderForm.handleChange.
    split; rewrite lookup_insert_ne; try done; intros ->.
    + by rewrite Hnl in Hacc.
    + by rewrite Hns in Hacc.
  - destruct (forallb _ _) eqn:Hsat; [|done]. injection Hstep as <-.
    split; [done|]. intros o. rewrite legacy_created_handleSubmit, elem_of_app.
    intros [Hin|Hin]; [by apply Hcreated|].
    apply list_elem_of_singleton in Hin as ->.
    split; [done | by apply legacy_satisfied_priced].
Qed.

Lemma legacy_run_invariant env es st st' :
  legacy_invariant st -> run env es st = Some st' -> legacy_invariant st'.
Proof.
  revert st. induction es as [|e es IH]; intros st Hinv Hrun; simpl in Hrun.
  - by injection Hrun as <-.
  - destruct (step env st e) as [st1|] eqn:He; [|done].
    eapply IH; [|exact Hrun]. by eapply legacy_step_keeps_invariant.
Qed.

(** The earlier form offers the single [price] input exactly when the order
    type is not market and never offers [limit_price] or [stop_price]; no
    order it creates has a [limit_price] or a [stop_price], and every order
    it creates that is not a market order has a [price]. *)
Theorem legacy_form_uses_generic_price env events st :
  run env events initial = Some st ->
  (forall formData,
     offers formData "price" = not_market formData
     /\ offers formData "limit_price" = false
     /\ offers formData "stop_price" = false)
  /\ (forall order, order ∈ created st ->
        order !! "limit_price" = None
        /\ order !! "stop_price" = None
        /\ (not_market order = true -> is_Some (order !! "price"))).
Proof.
  intros Hrun. split; [apply legacy_offers_price|].
  assert (Hinv : legacy_invariant st).
  { apply (legacy_run_invariant env events initial st); [|exact Hrun].
    split; [by split|]. intros o Ho. by apply elem_of_nil in Ho. }
  intros order Hin. destruct Hinv as [_ Hcreated].
  destruct (Hcreated order Hin) as [[Hl Hs] Hp]. by split_and!.
Qed.

End LegacyForm.

(** Witness for the earlier form: a limit order with its price. *)
Lemma legacy_form_uses_generic_price_witness :
  LegacyCreateOrderForm.run None MoreSamples.legacy_limit LegacyCreateOrderForm.initial
  = Some MoreSamples.after_legacy_limit
  /\ LegacyCreateOrderForm.offers
       (LegacyCreateOrderForm.formData MoreSamples.after_legacy_limit) "limit_price" = false.
Proof.
  assert (Hrun : LegacyCreateOrderForm.run None MoreSamples.legacy_limit
                   LegacyCreateOrderForm.initial
                 = Some MoreSamples.after_legacy_limit) by (vm_compute; reflexivity).
  split; [exact Hrun|].
  apply (proj1 (legacy_form_uses_generic_price None MoreSamples.legacy_limit
                  MoreSamples.after_legacy_limit Hrun)).
Defined.

(** ** The webhook form: the events list *)

Section WebhookFormMore.
Import CreateWebhookForm WebhookFormFacts.

(** Ticking a checkbox flips the membership of its event and of no other. *)
Theorem toggle_flips_membership (event other : WebhookEvent) st :
  other ∈ Create.events (formData (handleEventToggle event st))
  <-> (if decide (other = event)
       then event ∉ Create.events (formData st)
       else other ∈ Create.events (formData st)).
Proof.
  unfold handleEventToggle, includes. simpl.
  destruct (decide (other = event)) as [->|Hne]; case_bool_decide as Hin.
  - rewrite list_elem_of_filter. split; [by intros [? _] | done].
  - rewrite elem_of_app, list_elem_of_singleton. split; [done | by right].
  - rewrite list_elem_of_filter. by split; [intros [_ ?] | ].
  - rewrite elem_of_app, list_elem_of_singleton. split; [by intros [?|?] | by left].
Qed.

Lemma toggle_keeps_NoDup event st :
  NoDup (Create.events (formData st)) ->
  NoDup (Create.events (formData (handleEventToggle event st))).
Proof.
  intros Hnd. unfold handleEventToggle, includes. simpl.
  case_bool_decide as Hin.
  - by apply NoDup_filter.
  - apply NoDup_app. split_and!; [done| |apply NoDup_singleton].
    intros x Hx ->%list_elem_of_singleton. done.
Qed.

Lemma created_webhook_handleSubmit env st :
  created (handleSubmit env st)
  = (created st ++ (if Nat.eqb (length (Create.events (formData st))) 0
                    then [] else [formData st]))%list.
Proof.
  unfold created, handleSubmit.
  destruct (Nat.eqb _ 0); simpl; [by rewrite app_nil_r | by rewrite omap_app].
Qed.

Lemma step_keeps_events_distinct env st e st' :
  events_distinct st -> step env st e = Some st' -> events_distinct st'.
Proof.
  intros [Hfd Hcreated] Hstep. destruct e; cbn [step] in Hstep.
  - case_bool_decide; [|done]. injection Hstep as <-. split; [|exact Hcreated].
    unfold handleChange. simpl. by repeat case_match.
  - injection Hstep as <-. split; [by apply toggle_keeps_NoDup | exact Hcreated].
  - case_match; [|done]. injection Hstep as <-. split.
    + unfold handleSubmit. by case_match.
    + intros w. rewrite created_webhook_handleSubmit, elem_of_app.
      intros [Hin|Hin]; [by apply Hcreated|].
      case_match; [by apply elem_of_nil in Hin|].
      by apply list_elem_of_singleton in Hin as ->.
  - case_match; [|done]. injection Hstep as <-. split; [apply NoDup_nil_2 | exact Hcreated].
  - destruct (isLoading st); [|done]. unfold onError in Hstep.
    destruct (alert_text detail); [|done].
    injection Hstep as <-. split; [done | exact Hcreated].
Qed.

(** No request the form sends lists an event twice. *)
Theorem events_never_duplicated env events st :
  run env events initial = Some st ->
  NoDup (Create.events (formData st))
  /\ forall w, w ∈ created st -> NoDup (Create.events w).
Proof.
  intros Hrun.
  apply (webhook_run_invariant env events_distinct
           (step_keeps_events_distinct env) events initial st); [|exact Hrun].
  split; [apply NoDup_nil_2|]. intros w Hin. by apply elem_of_nil in Hin.
Qed.

Lemma events_never_duplicated_witness :
  run None MoreSamples.hook_submitted initial = Some MoreSamples.after_hook_submitted
  /\ NoDup (Create.events (formData MoreSamples.after_hook_submitted)).
Proof.
  assert (Hrun : run None MoreSamples.hook_submitted initial
                 = Some MoreSamples.after_hook_submitted) by (vm_compute; reflexivity).
  split; [exact Hrun|].
  exact (proj1 (events_never_duplicated None MoreSamples.hook_submitted
                  MoreSamples.after_hook_submitted Hrun)).
Defined.

(** Ticking and unticking: two toggles of one event give back the same
    events, in the same order when the event was not ticked before and up
    to order when it was. *)
Theorem toggle_twice event st :
  NoDup (Create.events (formData st)) ->
  Create.events (formData (handleEventToggle event (handleEventToggle event st)))
    ≡ₚ Create.events (formData st)
  /\ (event ∉ Create.events (formData st) ->
      formData (handleEventToggle event (handleEventToggle event st)) = formData st).
Proof.
  intros Hnd. split.
  - apply NoDup_Permutation; [by do 2 apply toggle_keeps_NoDup | done |].
    intros x. rewrite toggle_flips_membership.
    destruct (decide (x = event)) as [->|Hne].
    + rewrite toggle_flips_membership, decide_True by done.
      split; [apply dec_stable | by intros ? ?].
    + by rewrite toggle_flips_membership, decide_False.
  - intros Hnot. unfold handleEventToggle at 2. unfold includes. simpl.
    rewrite bool_decide_eq_false_2 by done.
    unfold handleEventToggle, includes. simpl.
    rewrite bool_decide_eq_true_2 by (apply elem_of_app; right; by left).
    rewrite filter_app, filter_cons_False, filter_nil, app_nil_r by (by intros H).
    assert (Hid : filter (fun e => e <> event) (Create.events (formData st))
                  = Create.events (formData st)).
    { clear Hnd. induction (Create.events (formData st)) as [|x l IH]; [done|].
      apply not_elem_of_cons in Hnot as [Hx Hl].
      rewrite filter_cons_True by done. by rewrite IH. }
    rewrite Hid. by destruct (formData st).
Qed.

Lemma toggle_twice_witness :
  formData (handleEventToggle ORDER_CREATED
              (handleEventToggle ORDER_CREATED MoreSamples.ticked_form))
  = formData MoreSamples.ticked_form.
Proof.
  assert (Hnd : NoDup (Create.events (formData MoreSamples.ticked_form)))
    by (by apply (bool_decide_unpack _)).
  apply (proj2 (toggle_twice ORDER_CREATED MoreSamples.ticked_form Hnd)).
  by apply (bool_decide_unpack _).
Defined.

(** A failed creation whose detail the alert can show keeps the form: the
    form data stays, the alert shows the detail (the default text when the
    detail is missing or falsy), and submitting again sends the same
    request again.  A failed creation whose detail is an object leaves no
    form to go on with. *)
Theorem retry_resends_the_request env detail st st1 :
  Create.events (formData st) <> [] ->
  step env st Submit = Some st1 ->
  match alert_text detail with
  | Some text =>
      exists st2,
        step env st1 (Failure detail) = Some st2
        /\ formData st2 = formData st
        /\ error st2 = Some text
        /\ exists st3,
             step env st2 Submit = Some st3
             /\ sent st3 = (sent st ++ [WebhookApi.createWebhook env (formData st);
                                        WebhookApi.createWebhook env (formData st)])%list
  | None => step env st1 (Failure detail) = None
  end.
Proof.
  intros Hev Hsub. cbn [step] in Hsub.
  destruct (negb (isLoading st) && _ && _) eqn:Hok; [|done].
  injection Hsub as <-.
  assert (Hlen : Nat.eqb (length (Create.events (formData st))) 0 = false).
  { apply Nat.eqb_neq. by destruct (Create.events (formData st)). }
  assert (Hst1 : handleSubmit env st
                 = mkState (formData st) (error st) true
                     (sent st ++ [WebhookApi.createWebhook env (formData st)])).
  { unfold handleSubmit. by rewrite Hlen. }
  rewrite Hst1. cbn [step isLoading]. unfold onError.
  destruct (alert_text detail) as [text|]; [|done].
  eexists. split_and!; [reflexivity..|].
  eexists. split.
  - cbn [step isLoading formData negb]. rewrite andb_true_l.
    apply andb_true_iff in Hok as [[_ Hn]%andb_true_iff Hu].
    rewrite Hn, Hu. cbn [andb]. reflexivity.
  - unfold handleSubmit. cbn [formData sent]. rewrite Hlen.
    cbn [sent]. by rewrite <- app_assoc.
Qed.

Lemma retry_resends_the_request_witness :
  exists st2 st3,
    step None (handleSubmit None MoreSamples.ticked_form)
      (Failure (RenderedDetail "Webhook URL already registered")) = Some st2
    /\ error st2 = Some "Webhook URL already registered"
    /\ step None st2 Submit = Some st3
    /\ length (sent st3) = 2.
Proof.
  destruct (retry_resends_the_request None (RenderedDetail "Webhook URL already registered")
              MoreSamples.ticked_form (handleSubmit None MoreSamples.ticked_form))
    as (st2 & Hfail & _ & Herr & st3 & Hstep & Hsent); [discriminate | reflexivity |].
  exists st2, st3. split_and!; [exact Hfail | exact Herr | exact Hstep |].
  by rewrite Hsent.
Defined.

End WebhookFormMore.

Section WebhookInFlight.
Import CreateWebhookForm WebhookFormFacts.

Lemma webhook_run_counts env events st st' :
  run env events st = Some st' ->
  in_flight st <= length (sent st) ->
  length (sent st') + in_flight st
  = length (sent st) + completed events + in_flight st'
  /\ in_flight st' <= length (sent st').
Proof.
  revert st. induction events as [|e events IH]; intros st Hrun Hle; simpl in Hrun.
  - injection Hrun as <-. unfold completed. simpl. lia.
  - destruct (step env st e) as [st1|] eqn:Hstep; [|done].
    assert (Hone : length (sent st1) + in_flight st
                   = length (sent st) + (if is_outcome e then 1 else 0) + in_flight st1
                   /\ in_flight st1 <= length (sent st1)).
    { unfold in_flight in *. destruct e; cbn [step] in Hstep.
      - case_bool_decide; [|done]. injection Hstep as <-. simpl. lia.
      - injection Hstep as <-. simpl. lia.
      - destruct (isLoading st) eqn:Hl; [done|].
        cbn [negb andb] in Hstep. destruct (_ && _); [|done].
        injection Hstep as <-. unfold handleSubmit.
        destruct (Nat.eqb _ 0); simpl; rewrite ?Hl, ?length_app; simpl; lia.
      - destruct (isLoading st); [|done]. injection Hstep as <-. simpl in *. lia.
      - destruct (isLoading st); [|done]. unfold onError in Hstep.
        destruct (alert_text detail); [|done].
        injection Hstep as <-. simpl in *. lia. }
    destruct Hone as [Hone Hle1].
    destruct (IH st1 Hrun Hle1) as [Hrest Hle'].
    split; [|done]. unfold completed in *. rewrite filter_cons.
    destruct (is_outcome e).
    + rewrite decide_True by done. simpl in *. lia.
    + rewrite decide_False by done. simpl in *. lia.
Qed.

(** While a creation request is in flight the webhook form sends no
    other: the requests sent are the outcomes received plus the one still
    awaited, and a submit while loading is not possible. *)
Theorem webhook_one_request_in_flight env events st :
  run env events initial = Some st ->
  length (sent st) = completed events + (if isLoading st then 1 else 0)
  /\ (isLoading st = true -> step env st Submit = None).
Proof.
  intros Hrun. split.
  - assert (Hle : in_flight initial <= length (sent initial))
      by (unfold in_flight; simpl; lia).
    destruct (webhook_run_counts env events initial st Hrun Hle) as [Heq _].
    unfold in_flight in Heq. simpl in Heq. destruct (isLoading st); lia.
  - intros Hl. cbn [step]. by rewrite Hl.
Qed.

Lemma webhook_one_request_in_flight_witness :
  run None MoreSamples.hook_submitted initial = Some MoreSamples.after_hook_submitted
  /\ length (sent MoreSamples.after_hook_submitted) = 1.
Proof.
  assert (Hrun : run None MoreSamples.hook_submitted initial
                 = Some MoreSamples.after_hook_submitted) by (vm_compute; reflexivity).
  split; [exact Hrun|].
  exact (proj1 (webhook_one_request_in_flight None MoreSamples.hook_submitted
                  MoreSamples.after_hook_submitted Hrun)).
Defined.

End WebhookInFlight.


(** ** The API clients: which URL addresses what *)

Section Urls.
Import Digits.

Lemma string_length_app (a b : string) :
  String.length (a ++ b) = String.length a + String.length b.
Proof. induction a as [|c a IH]; simpl; [done | by rewrite IH]. Qed.

Lemma string_app_empty_r (a : string) : a ++ "" = a.
Proof. induction a as [|c a IH]; [done|]. change (String c (a ++ "") = String c a). by rewrite IH. Qed.

Lemma string_app_inj_r (a b suffix : string) :
  a ++ suffix = b ++ suffix -> a = b.
Proof.
  revert b. induction a as [|c a IH]; intros [|d b] H.
  - done.
  - exfalso. apply (f_equal String.length) in H.
    rewrite !string_length_app in H. simpl in H. lia.
  - exfalso. apply (f_equal String.length) in H.
    rewrite !string_length_app in H. simpl in H. lia.
  - injection H as -> H. f_equal. by apply IH.
Qed.

Lemma show_id_inj i j : show_id i = show_id j -> i = j.
Proof. unfold show_id. apply pretty_nat_inj. Qed.

Lemma pretty_N_char_digit x : is_digit (pretty_N_char x) = true.
Proof. unfold pretty_N_char. by repeat case_match. Qed.

Lemma pretty_N_go_numeral x s : numeral s -> numeral (pretty_N_go x s).
Proof.
  revert s. induction (N.lt_wf_0 x) as [x _ IH]; intros s Hs.
  assert (x = 0 \/ 0 < x)%N as [->|Hpos] by lia.
  - by rewrite pretty_N_go_0.
  - rewrite pretty_N_go_step by done. apply IH; [by apply N.div_lt|].
    destruct Hs as [Hd _]. split; [|done].
    simpl. by rewrite pretty_N_char_digit, Hd.
Qed.

(** An id is printed as a non-empty string of decimal digits. *)
Lemma show_id_numeral i : numeral (show_id i).
Proof.
  unfold show_id, pretty, pretty_nat, pretty, pretty_N.
  case_decide; [done|].
  rewrite pretty_N_go_step by lia. apply pretty_N_go_numeral.
  split; [|done]. simpl. by rewrite pretty_N_char_digit.
Qed.

Lemma numeral_not_word s rest (c : Ascii.ascii) word :
  numeral s -> is_digit c = false -> s ++ rest <> String c word.
Proof.
  intros [Hd Hne] Hc. destruct s as [|d s]; [done|].
  simpl. intros [= -> _]. simpl in Hd. by rewrite Hc in Hd.
Qed.

End Urls.

(** The URL of a per-order request identifies the order, and the URL of a
    per-webhook request the webhook: two ids that give the same URL are the
    same id. *)
Theorem resource_urls_identify_the_id env (i j : nat) :
  (OrdersApi.url (OrdersApi.getOrder env i) = OrdersApi.url (OrdersApi.getOrder env j)
     -> i = j)
  /\ (OrdersApi.url (OrdersApi.cancelOrder env i) = OrdersApi.url (OrdersApi.cancelOrder env j)
        -> i = j)
  /\ (OrdersApi.url (OrdersApi.deleteOrder env i) = OrdersApi.url (OrdersApi.deleteOrder env j)
        -> i = j)
  /\ (forall o o', OrdersApi.url (OrdersApi.updateOrder env i o)
                   = OrdersApi.url (OrdersApi.updateOrder env j o') -> i = j)
  /\ (WebhookApi.url (WebhookApi.getWebhook env i) = WebhookApi.url (WebhookApi.getWebhook env j)
        -> i = j)
  /\ (WebhookApi.url (WebhookApi.testWebhook env i) = WebhookApi.url (WebhookApi.testWebhook env j)
        -> i = j)
  /\ (WebhookApi.url (WebhookApi.deleteWebhook env i)
      = WebhookApi.url (WebhookApi.deleteWebhook env j) -> i = j)
  /\ (forall u u', WebhookApi.url (WebhookApi.updateWebhook env i u)
                   = WebhookApi.url (WebhookApi.updateWebhook env j u') -> i = j).
Proof.
  assert (Hplain : forall base : string,
             base ++ "/" ++ show_id i = base ++ "/" ++ show_id j -> i = j).
  { intros base H. apply String.app_inj in H. apply (String.app_inj "/") in H.
    by apply show_id_inj. }
  assert (Hsuffix : forall base suffix : string,
             base ++ "/" ++ show_id i ++ suffix = base ++ "/" ++ show_id j ++ suffix -> i = j).
  { intros base suffix H. apply String.app_inj in H. apply (String.app_inj "/") in H.
    apply string_app_inj_r in H. by apply show_id_inj. }
  split_and!; simpl; try (intros ? ?); try apply Hplain; apply Hsuffix.
Qed.

(** Among the POST requests of the orders client the URL tells the
    operation: the collection URL, a cancel URL, [/chain], [/bracket] and
    [/oco] are five different URLs, whatever the order id; and no per-order
    URL is the collection URL. *)
Theorem post_routes_are_distinct env (i : nat)
    (order entry takeProfit stopLoss limitOrder stopOrder : CreateOrderRequest)
    (orders : list CreateOrderRequest) :
  NoDup [ OrdersApi.url (OrdersApi.createOrder env order);
          OrdersApi.url (OrdersApi.cancelOrder env i);
          OrdersApi.url (OrdersApi.createOrderChain env orders);
          OrdersApi.url (OrdersApi.createBracketOrder env entry takeProfit stopLoss);
          OrdersApi.url (OrdersApi.createOCOOrder env limitOrder stopOrder) ]
  /\ OrdersApi.url (OrdersApi.getOrder env i) <> OrdersApi.url (OrdersApi.getOrders env).
Proof.
  set (base := OrdersApi.BASE_URL env).
  assert (Hbase : forall s : string, s <> "" -> base ++ s <> base).
  { intros s Hs H. apply Hs.
    apply (String.app_inj base). by rewrite H, string_app_empty_r. }
  assert (Hcancel : forall word : string,
             base ++ "/" ++ show_id i ++ "/cancel" <> base ++ String "/" (String "c" word)
             /\ base ++ "/" ++ show_id i ++ "/cancel" <> base ++ String "/" (String "b" word)
             /\ base ++ "/" ++ show_id i ++ "/cancel" <> base ++ String "/" (String "o" word)).
  { intros word. split_and!; intros H; apply String.app_inj in H; injection H as H;
      by apply (numeral_not_word _ _ _ _ (show_id_numeral i)) in H. }
  assert (Hstatic : forall a b : string, a <> b -> base ++ a <> base ++ b).
  { intros a b Hab H. by apply String.app_inj in H. }
  split.
  - simpl. fold base.
    repeat (apply NoDup_cons; split); try apply NoDup_nil_2;
      rewrite ?not_elem_of_cons; split_and?; try apply not_elem_of_nil;
      try (apply not_eq_sym, Hbase; intros H; discriminate H);
      try (apply Hstatic; intros H; discriminate H);
      try apply (Hcancel "hain"); try apply (Hcancel "racket"); try apply (Hcancel "co").
  - simpl. fold base. apply Hbase. intros H; discriminate H.
Qed.

(** ** The order list as a whole *)

(** What the rendered list can send: nothing while the query is loading or
    has failed; otherwise one request per order, in the order of the list --
    the cancel of an ACTIVE order, the delete of any other -- so in every
    row exactly one of the two buttons is enabled. *)
Theorem list_offers_one_request_per_order env (isLoading error : bool)
    (orders : option (list Order)) (ok : bool) :
  OrderListFacts.view_requests (OrderList.render env isLoading error orders) ok
  = (if isLoading || error then []
     else map (OrderListFacts.offered env) (default [] orders))
  /\ (forall o : Order,
        OrderList.disabled (OrderList.cancelButton (OrderList.row env o))
        = negb (OrderList.disabled (OrderList.deleteButton (OrderList.row env o)))
        /\ OrderList.click (OrderList.detailsButton (OrderList.row env o)) ok = []).
Proof.
  split.
  - destruct isLoading, error; try reflexivity.
    simpl. destruct orders as [os|]; [|reflexivity]. simpl.
    induction os as [|o os IH]; [done|].
    simpl. rewrite row_requests_by_status, IH. unfold OrderListFacts.offered.
    by destruct (decide (status o = ACTIVE)).
  - intros o. split; [|done]. simpl. by repeat case_bool_decide.
Qed.

(** ** Sessions (AuthContext.tsx) *)

Section Sessions.
Import UserTypes AuthContext.

(** A login survives a reload: after a successful login whose token is not
    empty, a remount asks [/me] once and takes the user the server names;
    if that request fails, the token is removed and later reloads ask
    nothing. *)
Theorem login_survives_reload env credentials response (u : User) (w : World) :
  access_token response <> "" ->
  let logged_in := fst (login env credentials (Some response) w) in
  user logged_in = Some (UserTypes.user response)
  /\ token logged_in = Some (access_token response)
  /\ user (reload env (Some u) logged_in) = Some u
  /\ requests (reload env (Some u) logged_in) = [UserApi.getCurrentUser env]
  /\ user (reload env None logged_in) = None
  /\ token (reload env None logged_in) = None
  /\ (forall reply, requests (reload env reply (reload env None logged_in)) = []).
Proof.
  intros Hne logged_in. unfold reload, initAuth, mounted. simpl.
  assert (Ht : negb (String.eqb (access_token response) "") = true)
    by (by apply negb_true_iff, String.eqb_neq).
  rewrite Ht. simpl. split_and!; try done.
Qed.

Lemma login_survives_reload_witness :
  user (reload None (Some MoreSamples.jane)
          (fst (login None (Login.mkLoginRequest "jane" "password456")
                  (Some (mkLoginResponse "eyJ0eXAi" "bearer" MoreSamples.jane))
                  (mounted None))))
  = Some MoreSamples.jane.
Proof.
  apply (login_survives_reload None (Login.mkLoginRequest "jane" "password456")
           (mkLoginResponse "eyJ0eXAi" "bearer" MoreSamples.jane) MoreSamples.jane
           (mounted None)).
  discriminate.
Defined.

(** A registration does not: [register] sets the user without storing a
    token, so from a storage without token the registered user is signed in
    until the next reload, which signs nobody in and asks the server
    nothing. *)
Theorem registration_does_not_survive_reload env userData (u : User) reply (w : World) :
  truthy (token w) = false ->
  let registered := fst (register env userData (Some u) w) in
  user registered = Some u
  /\ token registered = token w
  /\ user (reload env reply registered) = None
  /\ requests (reload env reply registered) = []
  /\ isLoading (reload env reply registered) = false.
Proof.
  intros Hno registered. unfold reload, initAuth, mounted. simpl. by rewrite Hno.
Qed.

Lemma registration_does_not_survive_reload_witness :
  user (reload None (Some MoreSamples.jane)
          (fst (register None MoreSamples.jane_registration (Some MoreSamples.jane)
                  (mounted None))))
  = None.
Proof.
  apply (registration_does_not_survive_reload None MoreSamples.jane_registration
           MoreSamples.jane (Some MoreSamples.jane) (mounted None)).
  reflexivity.
Defined.

(** A logout that the server refuses changes nothing but the console: the
    user stays signed in and the token stays stored, so the protected pages
    stay on screen; a logout that succeeds removes both, and every
    protected route then leads to the auth page. *)
Theorem failed_logout_keeps_the_session env (w : World) (r : App.Route) :
  (user (logout env false w) = user w
   /\ token (logout env false w) = token w
   /\ App.element (user (logout env false w)) r = App.element (user w) r)
  /\ (user (logout env true w) = None
      /\ token (logout env true w) = None
      /\ (r ∈ [App.orders_route; App.discord_route] ->
          App.element (user (logout env true w)) r = App.Navigate "/auth")
      /\ forall reply, user (reload env reply (logout env true w)) = None).
Proof.
  split; [by split_and!|]. split_and!; try done.
  intros Hr. repeat (apply elem_of_cons in Hr as [->|Hr]); try done.
  by apply elem_of_nil in Hr.
Qed.

End Sessions.

(** ** Routes (App.tsx) *)

(** Whatever route matches, following the redirects ends within two steps;
    without a user it ends on the auth page (or on nothing, when no route
    matches) and never on a protected page; with a user [/] leads to the
    orders page. *)
Theorem protected_pages_need_a_user (user : option UserTypes.User) (r : App.Route) :
  App.settle 2 user r
  = match r, user with
    | App.no_route, _ => App.Nothing
    | App.auth_route, _ => App.Show App.AuthPage
    | _, None => App.Show App.AuthPage
    | App.discord_route, Some _ => App.Show App.DiscordIntegrationPage
    | _, Some _ => App.Show App.OrderManagementPage
    end
  /\ (user = None ->
      App.settle 2 user r <> App.Show App.OrderManagementPage
      /\ App.settle 2 user r <> App.Show App.DiscordIntegrationPage).
Proof.
  split.
  - by destruct r, user.
  - intros ->. by destruct r.
Qed.

(** On a reload every protected route redirects to the auth page before
    [initAuth] has answered, whatever token is stored; and the auth route
    shows the auth page also to the user [initAuth] then signs in. *)
Theorem reload_lands_on_the_auth_page env stored (u : UserTypes.User) (r : App.Route) :
  r ∈ [App.orders_route; App.discord_route; App.root_route] ->
  App.settle 2 (AuthContext.user (AuthContext.mounted stored)) r = App.Show App.AuthPage
  /\ App.element
       (AuthContext.user (AuthContext.initAuth env (Some u) (AuthContext.mounted stored)))
       (App.matched "/auth")
     = App.Show App.AuthPage.
Proof.
  intros Hr. split; [|done].
  repeat (apply elem_of_cons in Hr as [->|Hr]); try done.
  by apply elem_of_nil in Hr.
Qed.

Lemma reload_lands_on_the_auth_page_witness :
  App.settle 2 (AuthContext.user (AuthContext.mounted (Some "eyJ0eXAi"))) App.orders_route
  = App.Show App.AuthPage.
Proof.
  apply (reload_lands_on_the_auth_page None (Some "eyJ0eXAi") MoreSamples.jane
           App.orders_route).
  left.
Defined.

(** ** The register form *)

Section Registering.
Import UserTypes RegisterForm.

(** The form registers only a confirmed password: with a confirmation that
    differs, [handleSubmit] sets the validation message and asks the
    server nothing; with one that matches, it sends exactly the form data,
    once. *)
Theorem only_confirmed_passwords_are_registered env reply (st : State) :
  (Register.password (formData st) <> confirmPassword st ->
   handleSubmit env reply st
   = mkState (formData st) (confirmPassword st) (Some "Passwords do not match") (auth st))
  /\ (Register.password (formData st) = confirmPassword st ->
      registrations (auth (handleSubmit env reply st))
      = (registrations (auth st) ++ [formData st])%list
      /\ validationError (handleSubmit env reply st) = validationError st
      /\ AuthContext.user (auth (handleSubmit env reply st))
         = from_option Some (AuthContext.user (auth st)) reply).
Proof.
  unfold handleSubmit. split.
  - intros Hne. apply String.eqb_neq in Hne. by rewrite Hne.
  - intros Heq. rewrite Heq, String.eqb_refl. simpl.
    unfold registrations, AuthContext.register.
    destruct reply; simpl; by rewrite omap_app.
Qed.

Lemma only_confirmed_passwords_are_registered_witness :
  handleSubmit None (Some MoreSamples.jane)
    (mkState MoreSamples.jane_registration "password457" None (AuthContext.mounted None))
  = mkState MoreSamples.jane_registration "password457" (Some "Passwords do not match")
      (AuthContext.mounted None).
Proof.
  apply (proj1 (only_confirmed_passwords_are_registered None (Some MoreSamples.jane)
                  (mkState MoreSamples.jane_registration "password457" None
                     (AuthContext.mounted None)))).
  discriminate.
Defined.

(** Once a registration was refused, the alert keeps showing the refusal:
    editing any input does not clear it, and a submit with a confirmation
    that differs still shows it instead of the validation message. *)
Theorem refusal_outlives_edits env (st : State) message :
  AuthContext.error (auth st) = Some message -> message <> "" ->
  (forall name value, alert (handleChange name value st) = Some message)
  /\ (forall reply, Register.password (formData st) <> confirmPassword st ->
        alert (handleSubmit env reply st) = Some message).
Proof.
  intros Herr Hne.
  assert (Ht : AuthContext.truthy (Some message) = true)
    by (by apply negb_true_iff, String.eqb_neq).
  split.
  - intros name value. unfold alert, handleChange.
    destruct (String.eqb name "confirmPassword"); cbn [auth validationError];
      by rewrite Herr, !Ht.
  - intros reply Hpw. unfold alert, handleSubmit.
    apply String.eqb_neq in Hpw. rewrite Hpw. cbn [negb auth validationError].
    by rewrite Herr, !Ht.
Qed.

Lemma refusal_outlives_edits_witness :
  alert (handleChange "confirmPassword" "x" MoreSamples.refused_registration)
  = Some "Registration failed. Please try again.".
Proof.
  apply (proj1 (refusal_outlives_edits None MoreSamples.refused_registration
                  "Registration failed. Please try again." eq_refl
                  ltac:(discriminate))).
Defined.

End Registering.

(** ** The tabbed pages *)

(** Each page shows the content of exactly the tab that is selected: the
    first component for tab 0, the second for tab 1, nothing for any other
    value; and the earlier order page shows the same as the current one. *)
Theorem pages_show_the_selected_tab (tabValue : nat) :
  Pages.on_screen (Pages.OrderManagementPage tabValue)
  = match tabValue with
    | 0 => [Pages.OrderList]
    | 1 => [Pages.CreateOrderForm]
    | _ => []
    end
  /\ Pages.on_screen (Pages.DiscordIntegrationPage tabValue)
     = match tabValue with
       | 0 => [Pages.WebhookList]
       | 1 => [Pages.CreateWebhookForm]
       | _ => []
       end
  /\ Pages.on_screen (Pages.AuthPage tabValue)
     = match tabValue with
       | 0 => [Pages.LoginForm]
       | 1 => [Pages.RegisterForm]
       | _ => []
       end
  /\ Pages.OrderManagement tabValue = Pages.on_screen (Pages.OrderManagementPage tabValue)
  /\ (forall page, page ∈ [Pages.OrderManagementPage; Pages.DiscordIntegrationPage;
                           Pages.AuthPage] ->
        length (filter (fun p => Pages.hidden p = false) (page tabValue)) <= 1).
Proof.
  split_and!; try (by destruct tabValue as [|[|n]]).
  intros page Hin.
  repeat (apply elem_of_cons in Hin as [->|Hin]);
    try (by apply elem_of_nil in Hin);
    destruct tabValue as [|[|n]]; vm_compute; lia.
Qed.
